(** * mcp-dev-standards: the aggregator, cache, search and source adapters

    A shallow embedding of the TypeScript sources
    [src/utils/parser.ts], [src/utils/cache.ts], [src/utils/manager.ts],
    [src/tools/resolve-standard.ts] and [src/sources/remote.ts], and the
    properties of the specification that concern them.

    Conventions of the embedding:
    - a JavaScript string is a [string]: a sequence of code units, each
      below 256 (the Latin-1 range of UTF-16), on which [toLowerCase], the
      white space class [\s] and [trim] are exactly those of ECMAScript;
    - a JavaScript number that the code uses as a counter, a score or a
      time in milliseconds is a [nat] or a [Z];
    - [undefined] / [null] results are [None];
    - the clock, the network and the front-matter library are oracles:
      section variables that every theorem quantifies over. *)

From Stdlib Require Import Ascii String List ZArith Lia Bool Permutation Sorted.
From stdpp Require Import base option list strings gmap.

Local Open Scope string_scope.
Local Open Scope list_scope.

(** ** JavaScript string primitives *)

Module JS.

Definition code (c : ascii) : nat := nat_of_ascii c.

(** [a + b] on strings. *)
Fixpoint concat (a b : string) : string :=
  match a with
  | EmptyString => b
  | String c a' => String c (concat a' b)
  end.

(** [\s] of ECMAScript regular expressions and the class removed by
    [String.prototype.trim], restricted to code units below 256:
    TAB, LF, VT, FF, CR, SPACE and NO-BREAK SPACE. *)
Definition isSpace (c : ascii) : bool :=
  let n := code c in
  (((9 <=? n) && (n <=? 13)) || (n =? 32) || (n =? 160))%nat.

(** [toLowerCase] on one code unit: A-Z and the Latin-1 capitals
    U+00C0-U+00DE, the multiplication sign U+00D7 apart. *)
Definition lowerChar (c : ascii) : ascii :=
  let n := code c in
  if (((65 <=? n) && (n <=? 90))
      || ((192 <=? n) && (n <=? 222) && negb (n =? 215)))%nat
  then ascii_of_nat (n + 32) else c.

Fixpoint mapChars (f : ascii -> ascii) (s : string) : string :=
  match s with
  | EmptyString => EmptyString
  | String c s' => String (f c) (mapChars f s')
  end.

Definition toLowerCase (s : string) : string := mapChars lowerChar s.

(** [s.replace(/x/g, y)] for single characters [x] and [y]. *)
Definition replaceChar (x y : ascii) (s : string) : string :=
  mapChars (fun c => if Ascii.eqb c x then y else c) s.

(** [s.startsWith(p)]. *)
Fixpoint startsWith (s p : string) : bool :=
  match p, s with
  | EmptyString, _ => true
  | String _ _, EmptyString => false
  | String a p', String b s' => Ascii.eqb a b && startsWith s' p'
  end.

(** [s.includes(t)]: [t] occurs in [s] at some position. *)
Fixpoint includes (s t : string) : bool :=
  startsWith s t ||
  match s with
  | EmptyString => false
  | String _ s' => includes s' t
  end.

Fixpoint drop (n : nat) (s : string) : string :=
  match n, s with
  | O, _ => s
  | S _, EmptyString => EmptyString
  | S n', String _ s' => drop n' s'
  end.

Fixpoint take (n : nat) (s : string) : string :=
  match n, s with
  | O, _ => EmptyString
  | S _, EmptyString => EmptyString
  | S n', String c s' => String c (take n' s')
  end.

(** [s.endsWith(p)]. *)
Definition endsWith (s p : string) : bool :=
  (String.length p <=? String.length s)%nat &&
  String.eqb (drop (String.length s - String.length p) s) p.

(** [s.replace(/^p/, '')] for a literal prefix [p]. *)
Definition stripPrefix (p s : string) : string :=
  if startsWith s p then drop (String.length p) s else s.

(** [s.replace(/p$/i, '')] for a literal lower-case suffix [p]. *)
Definition stripSuffixNoCase (p s : string) : string :=
  if endsWith (toLowerCase s) p
  then take (String.length s - String.length p) s else s.

Fixpoint trimStart (s : string) : string :=
  match s with
  | EmptyString => EmptyString
  | String c s' => if isSpace c then trimStart s' else s
  end.

Fixpoint allSpace (s : string) : bool :=
  match s with
  | EmptyString => true
  | String c s' => isSpace c && allSpace s'
  end.

Fixpoint trimEnd (s : string) : string :=
  match s with
  | EmptyString => EmptyString
  | String c s' => if allSpace s then EmptyString else String c (trimEnd s')
  end.

Definition headIsSpace (s : string) : bool :=
  match s with
  | EmptyString => false
  | String c _ => isSpace c
  end.

Fixpoint lastIsSpace (s : string) : bool :=
  match s with
  | EmptyString => false
  | String c EmptyString => isSpace c
  | String _ s' => lastIsSpace s'
  end.

(** [s.trim()]. *)
Definition trim (s : string) : string := trimEnd (trimStart s).

(** [Boolean(s)] for a string: the empty string is the only falsy one. *)
Definition truthy (s : string) : bool :=
  match s with EmptyString => false | String _ _ => true end.

(** [s.split(x)] for a single character [x]. *)
Fixpoint splitChar (x : ascii) (s : string) : list string :=
  match s with
  | EmptyString => [EmptyString]
  | String c s' =>
      if Ascii.eqb c x then EmptyString :: splitChar x s'
      else
        match splitChar x s' with
        | w :: ws => String c w :: ws
        | [] => [String c EmptyString]
        end
  end.

(** A line terminator: what [.] refuses and where [^] and [$] match
    under the [m] flag (LF and CR below 256). *)
Definition isLineTerminator (c : ascii) : bool :=
  ((code c =? 10) || (code c =? 13))%nat.

Fixpoint takeWhile (f : ascii -> bool) (s : string) : string :=
  match s with
  | EmptyString => EmptyString
  | String c s' => if f c then String c (takeWhile f s') else EmptyString
  end.

Fixpoint dropWhile (f : ascii -> bool) (s : string) : string :=
  match s with
  | EmptyString => EmptyString
  | String c s' => if f c then dropWhile f s' else s
  end.

Fixpoint existsChar (f : ascii -> bool) (s : string) : bool :=
  match s with
  | EmptyString => false
  | String c s' => f c || existsChar f s'
  end.

(** [s.split(/\s+/)]: the pieces between the maximal runs of white
    space; a run at either end of [s] leaves an empty piece there, and
    the empty string gives one empty piece. *)
Fixpoint splitSpaces (s : string) : list string :=
  match s with
  | EmptyString => [EmptyString]
  | String c s' =>
      if isSpace c then
        match s' with
        | String c' _ =>
            if isSpace c' then splitSpaces s'
            else EmptyString :: splitSpaces s'
        | EmptyString => EmptyString :: splitSpaces s'
        end
      else
        match splitSpaces s' with
        | w :: ws => String c w :: ws
        | [] => [String c EmptyString]
        end
  end.

End JS.

(** ** The document model: [src/types/index.ts] *)

Inductive SourceType := local | remote | git.

(** The [tags] entry of a front-matter block: a YAML sequence or a scalar. *)
Inductive FmTags :=
| TagsArray (l : list string)
| TagsString (s : string).

(** The front-matter data [matter(content).data], at the types the fields
    of [StandardDocument] give its entries: strings, and for [tags] a
    sequence or a string. An absent key is [None]. *)
Record FrontMatter := {
  fm_id : option string;
  fm_title : option string;
  fm_description : option string;
  fm_category : option string;
  fm_subcategory : option string;
  fm_tags : option FmTags;
  fm_version : option string;
  fm_lastUpdated : option string;
  fm_last_updated : option string
}.

Definition emptyFrontMatter : FrontMatter :=
  {| fm_id := None; fm_title := None; fm_description := None;
     fm_category := None; fm_subcategory := None; fm_tags := None;
     fm_version := None; fm_lastUpdated := None; fm_last_updated := None |}.

Record StandardDocument := {
  id : string;
  title : string;
  description : option string;
  category : string;
  subcategory : option string;
  tags : list string;
  version : option string;
  lastUpdated : option string;
  source : SourceType;
  path : string;
  content : string;
  frontmatter : FrontMatter
}.

Record SearchResult := {
  sr_id : string;
  sr_title : string;
  sr_description : option string;
  sr_category : string;
  relevance : nat
}.

(** The outcome of a call that may throw, or of a promise that may reject. *)
Inductive Outcome (A : Type) :=
| Returns (a : A)
| Throws.
Arguments Returns {A} a.
Arguments Throws {A}.

(** [a || b] on an optional string: [a] when it is present and not empty. *)
Definition orElse (a : option string) (b : option string) : option string :=
  match a with
  | Some s => if JS.truthy s then Some s else b
  | None => b
  end.

Definition orDefault (a : option string) (b : string) : string :=
  match a with
  | Some s => if JS.truthy s then s else b
  | None => b
  end.

(** ** The Markdown normalizer: [src/utils/parser.ts] *)

Module Parser.
Import JS.

(** [replace(/^\.?\//, '')]. *)
Definition stripLeadingSlash (s : string) : string :=
  if startsWith s "./" then drop 2 s
  else if startsWith s "/" then drop 1 s
  else s.

Record PathInfo := {
  pi_category : string;
  pi_subcategory : option string;
  pi_filename : string
}.

(** [extractPathInfo]. *)
Definition extractPathInfo (filePath : string) : PathInfo :=
  let normalizedPath := replaceChar "\"%char "/"%char filePath in
  let cleanPath := stripLeadingSlash normalizedPath in
  let parts0 := splitChar "/"%char cleanPath in
  let parts :=
    match parts0 with
    | p :: rest => if String.eqb p "standards" then rest else parts0
    | [] => parts0
    end in
  let filename :=
    orDefault (option_map (stripSuffixNoCase ".md") (last parts))
              "unknown" in
  let category := orDefault (head parts) "custom" in
  let subcategory :=
    if (2 <? length parts)%nat then nth_error parts 1 else None in
  {| pi_category := category; pi_subcategory := subcategory;
     pi_filename := filename |}.

(** [generateId]: back slashes to slashes, then
    [.replace(/^\.?\//, '').replace(/^standards\//, '').replace(/\.md$/i, '')],
    then slashes to hyphens and [toLowerCase]. *)
Definition generateId (filePath : string) : string :=
  let normalizedPath := replaceChar "\"%char "/"%char filePath in
  let cleanPath :=
    stripSuffixNoCase ".md"
      (stripPrefix "standards/" (stripLeadingSlash normalizedPath)) in
  toLowerCase (replaceChar "/"%char "-"%char cleanPath).

(** The capture of [/^#\s+(.+)$/m] when [#] was just read at the start
    of a line and [rest] follows it. The greedy [\s+] takes the whole
    run of white space; when text follows, the group is that text up to
    the end of its line; when the run reaches the end of the input, the
    matcher gives back white space until [.] can take one character
    that is no line terminator. *)
Definition titleAt (rest : string) : option string :=
  let run := takeWhile isSpace rest in
  let after := dropWhile isSpace rest in
  match run, after with
  | EmptyString, _ => None
  | String _ run', String _ _ =>
      Some (takeWhile (fun c => negb (isLineTerminator c)) after)
  | String _ run', EmptyString =>
      let back := dropWhile isLineTerminator (String.rev run') in
      match back with
      | String c _ => Some (String c EmptyString)
      | EmptyString => None
      end
  end.

Fixpoint matchTitle (lineStart : bool) (s : string) : option string :=
  match s with
  | EmptyString => None
  | String c s' =>
      if lineStart && Ascii.eqb c "#"%char then
        match titleAt s' with
        | Some g => Some g
        | None => matchTitle false s'
        end
      else matchTitle (isLineTerminator c) s'
  end.

(** [extractTitle]: [content.match(/^#\s+(.+)$/m)?.[1]?.trim()]. *)
Definition extractTitle (content : string) : option string :=
  option_map trim (matchTitle true content).

(** The loop of [extractDescription] over the lines. *)
Fixpoint descriptionLoop (headless : bool) (foundTitle : bool)
    (lines : list string) : option string :=
  match lines with
  | [] => None
  | line :: rest =>
      let trimmedLine := trim line in
      if negb (truthy trimmedLine) then descriptionLoop headless foundTitle rest
      else if startsWith trimmedLine "#" then descriptionLoop headless true rest
      else if startsWith trimmedLine "```" then
        descriptionLoop headless foundTitle rest
      else if startsWith trimmedLine "-" || startsWith trimmedLine "*" then
        descriptionLoop headless foundTitle rest
      else if foundTitle || headless then
        if (200 <? String.length trimmedLine)%nat
        then Some (JS.concat (take 200 trimmedLine) "...")
        else Some trimmedLine
      else descriptionLoop headless foundTitle rest
  end.

(** [extractDescription]. *)
Definition extractDescription (content : string) : option string :=
  descriptionLoop (negb (startsWith (trim content) "#")) false
                  (splitChar "010"%char content).

(** [normalizeTags]. *)
Definition normalizeTags (tags : option FmTags) : list string :=
  match tags with
  | None => []
  | Some (TagsArray l) => List.filter truthy (List.map trim l)
  | Some (TagsString s) =>
      if truthy s
      then List.filter truthy (List.map trim (splitChar ","%char s))
      else []
  end.

(** [isValidMarkdown]. *)
Definition isValidMarkdown (content : string) : bool :=
  truthy content && negb (String.length (trim content) =? 0)%nat.

(** What a call of the front-matter library [matter(content)] does: it
    returns the data and the body, or it throws (the YAML engine it
    calls raises on a block that is not YAML). *)
Inductive MatterResult :=
| Parsed (data : FrontMatter) (body : string)
| MatterThrows.

Section WithMatter.
Variable matter : string -> MatterResult.

(** [parseMarkdown]: no [try] surrounds the call of [matter]. *)
Definition parseMarkdown (content filePath : string) (src : SourceType)
    : Outcome StandardDocument :=
  match matter content with
  | MatterThrows => Throws
  | Parsed fm markdownContent =>
      let pathInfo := extractPathInfo filePath in
      let id := orDefault (fm_id fm) (generateId filePath) in
      let title :=
        orDefault (orElse (fm_title fm) (extractTitle markdownContent))
                  (pi_filename pathInfo) in
      let tags := normalizeTags (fm_tags fm) in
      Returns
        {| id := id;
           title := title;
           description :=
             orElse (fm_description fm) (extractDescription markdownContent);
           category := orDefault (fm_category fm) (pi_category pathInfo);
           subcategory :=
             orElse (fm_subcategory fm) (pi_subcategory pathInfo);
           tags := tags;
           version := fm_version fm;
           lastUpdated := orElse (fm_lastUpdated fm) (fm_last_updated fm);
           source := src;
           path := filePath;
           content := trim markdownContent;
           frontmatter := fm |}
  end.
End WithMatter.

End Parser.

(** ** The TTL cache: [src/utils/cache.ts] *)

Module Cache.

Record CacheEntry (T : Type) := {
  data : T;
  timestamp : Z;
  expiresAt : Z
}.
Arguments data {T} _.
Arguments timestamp {T} _.
Arguments expiresAt {T} _.

Record t (T : Type) := {
  store : gmap string (CacheEntry T);
  defaultTTL : Z
}.
Arguments store {T} _.
Arguments defaultTTL {T} _.

Section Methods.
Context {T : Type}.

(** [new Cache(defaultTTL = 3600000)]. *)
Definition new (ttl : option Z) : t T :=
  {| store := ∅; defaultTTL := default 3600000%Z ttl |}.

Definition withStore (c : t T) (s : gmap string (CacheEntry T)) : t T :=
  {| store := s; defaultTTL := defaultTTL c |}.

(** [set(key, data, ttl?)], where [now] is what [Date.now()] returns. *)
Definition set (now : Z) (key : string) (d : T) (ttl : option Z)
    (c : t T) : t T :=
  let expiresAt := (now + default (defaultTTL c) ttl)%Z in
  withStore c
    (<[key := {| data := d; timestamp := now; expiresAt := expiresAt |}]>
       (store c)).

(** [get(key)]: the value, or [None] for [undefined], and the cache
    after the call. *)
Definition get (now : Z) (key : string) (c : t T) : option T * t T :=
  match store c !! key with
  | None => (None, c)
  | Some entry =>
      if (now >? expiresAt entry)%Z
      then (None, withStore c (delete key (store c)))
      else (Some (data entry), c)
  end.

(** [has(key)]: [this.get(key) !== undefined]. *)
Definition has (now : Z) (key : string) (c : t T) : bool * t T :=
  let '(v, c') := get now key c in (bool_decide (is_Some v), c').

(** [delete(key)]. *)
Definition delete (key : string) (c : t T) : bool * t T :=
  (bool_decide (is_Some (store c !! key)),
   withStore c (base.delete key (store c))).

(** [clear()]. *)
Definition clear (c : t T) : t T := withStore c ∅.

(** [cleanup()]. *)
Definition cleanup (now : Z) (c : t T) : t T :=
  withStore c
    (filter (fun kv => ¬ (now > expiresAt (snd kv))%Z) (store c)).

(** [size()]. *)
Definition size (c : t T) : nat := base.size (store c).
End Methods.

End Cache.

(** ** The aggregator: [src/utils/manager.ts] *)

Module Manager.
Import JS.

(** [RemoteDocConfig]: one entry of the explicit [docs] list. *)
Record RemoteDocConfig := {
  doc_url : string;
  doc_category : option string;
  doc_subcategory : option string
}.

(** [SourceConfig]: the discriminated union of [src/types/index.ts]. *)
Inductive SourceConfig :=
| LocalConfig (path : string)
| RemoteConfig (url : string) (headers : option (gmap string string))
               (docs : option (list RemoteDocConfig))
| GitConfig (repo branch : string) (path token : option string).

Record StandardsConfig := {
  projectTitle : string;
  sources : list SourceConfig;
  categories : list string;
  cacheTimeout : Z
}.

(** The adapters, as the constructors leave them. Their [load()] reads
    the file system or the network: its results come from an oracle. *)
Inductive DocumentSource :=
| LocalSource (basePath : string)
| RemoteSource (url : string) (headers : gmap string string)
               (docs : list RemoteDocConfig)
| GitSource (repo branch path : string) (token : option string).

Record StandardMetadata := {
  md_id : string;
  md_title : string;
  md_description : option string;
  md_category : string;
  md_subcategory : option string;
  md_tags : list string;
  md_version : option string;
  md_lastUpdated : option string;
  md_source : SourceType;
  md_path : string
}.

(** The fields of a [StandardsManager]. *)
Record t := {
  config : StandardsConfig;
  cache : Cache.t (list StandardDocument);
  documents : list StandardDocument;
  srcs : list DocumentSource;
  initialized : bool
}.

(** What the manager has done to the outside: how many times it has
    consulted the cache (each time at the instant the clock gives), and
    the adapters whose [load()] it has called, oldest first. *)
Record World := {
  cacheOps : nat;
  loadLog : list DocumentSource
}.

(** A method of the manager: a state transformer on the object and the
    world. *)
Definition M (A : Type) : Type := t * World -> A * (t * World).

Definition ret {A} (a : A) : M A := fun s => (a, s).
Definition bind {A B} (m : M A) (k : A -> M B) : M B :=
  fun s => let '(a, s') := m s in k a s'.

Notation "x <- m ;; k" := (bind m (fun x => k))
  (at level 100, m at next level, right associativity).
Notation "m ;;; k" := (bind m (fun _ => k))
  (at level 100, right associativity).

Definition this : M t := fun s => (fst s, s).
Definition update (f : t -> t) : M unit := fun s => (tt, (f (fst s), snd s)).

Definition setCache (c : Cache.t (list StandardDocument)) (m : t) : t :=
  {| config := config m; cache := c; documents := documents m;
     srcs := srcs m; initialized := initialized m |}.
Definition setDocuments (d : list StandardDocument) (m : t) : t :=
  {| config := config m; cache := cache m; documents := d;
     srcs := srcs m; initialized := initialized m |}.
Definition setSources (l : list DocumentSource) (m : t) : t :=
  {| config := config m; cache := cache m; documents := documents m;
     srcs := l; initialized := initialized m |}.
Definition setInitialized (b : bool) (m : t) : t :=
  {| config := config m; cache := cache m; documents := documents m;
     srcs := srcs m; initialized := b |}.

(** [new StandardsManager(config)]. *)
Definition new (cfg : StandardsConfig) : t :=
  {| config := cfg;
     cache := Cache.new (Some (cacheTimeout cfg * 1000)%Z);
     documents := [];
     srcs := [];
     initialized := false |}.

Definition world0 : World := {| cacheOps := 0; loadLog := [] |}.

Section WithOracles.
(** [clock n]: the value of [Date.now()] at the manager's [n]-th
    cache operation. *)
Variable clock : nat -> Z.
(** [loadOracle n s]: what [s.load()] settles to when it is the
    [n]-th adapter call of the run. *)
Variable loadOracle : nat -> DocumentSource -> Outcome (list StandardDocument).
(** [process.env.GITHUB_TOKEN]. *)
Variable GITHUB_TOKEN : option string.

Definition Date_now : M Z :=
  fun s =>
    let w := snd s in
    (clock (cacheOps w),
     (fst s, {| cacheOps := S (cacheOps w); loadLog := loadLog w |})).

Definition callLoad (src : DocumentSource)
    : M (Outcome (list StandardDocument)) :=
  fun s =>
    let w := snd s in
    (loadOracle (length (loadLog w)) src,
     (fst s, {| cacheOps := cacheOps w; loadLog := loadLog w ++ [src] |})).

Definition cacheGet (key : string) : M (option (list StandardDocument)) :=
  now <- Date_now ;;
  self <- this ;;
  let '(v, c) := Cache.get now key (cache self) in
  update (setCache c) ;;;
  ret v.

Definition cacheSet (key : string) (d : list StandardDocument) : M unit :=
  now <- Date_now ;;
  update (fun self => setCache (Cache.set now key d None (cache self)) self).

(** The constructor calls of [initialize], one per [sourceConfig]. *)
Definition construct (sc : SourceConfig) : DocumentSource :=
  match sc with
  | LocalConfig p => LocalSource p
  | RemoteConfig u h d => RemoteSource u (default ∅ h) (default [] d)
  | GitConfig r b p tk =>
      GitSource r b (default "" p) (orElse tk GITHUB_TOKEN)
  end.

(** The [for (const source of this.sources)] loop of [loadDocuments]:
    a rejected [load()] is caught and logged, and the loop goes on. *)
Fixpoint loadEach (l : list DocumentSource) (allDocs : list StandardDocument)
    : M (list StandardDocument) :=
  match l with
  | [] => ret allDocs
  | src :: rest =>
      r <- callLoad src ;;
      match r with
      | Returns docs => loadEach rest (allDocs ++ docs)
      | Throws => loadEach rest allDocs
      end
  end.

(** [loadDocuments]. *)
Definition loadDocuments : M unit :=
  cachedDocs <- cacheGet "all-documents" ;;
  match cachedDocs with
  | Some docs => update (setDocuments docs)
  | None =>
      self <- this ;;
      allDocs <- loadEach (srcs self) [] ;;
      update (setDocuments allDocs) ;;;
      cacheSet "all-documents" allDocs
  end.

(** [initialize]. *)
Definition initialize : M unit :=
  self <- this ;;
  if initialized self then ret tt
  else
    update (fun m => setSources (srcs m ++ List.map construct
                                   (sources (config m))) m) ;;;
    loadDocuments ;;;
    update (setInitialized true).

(** [refresh]. *)
Definition refresh : M unit :=
  update (fun m => setCache (Cache.clear (cache m)) m) ;;;
  loadDocuments.
End WithOracles.

Definition toMetadata (d : StandardDocument) : StandardMetadata :=
  {| md_id := id d; md_title := title d; md_description := description d;
     md_category := category d; md_subcategory := subcategory d;
     md_tags := tags d; md_version := version d;
     md_lastUpdated := lastUpdated d; md_source := source d;
     md_path := path d |}.

(** [getAllStandards]. *)
Definition getAllStandards (m : t) : list StandardMetadata :=
  List.map toMetadata (documents m).

(** [getStandardById]: [this.documents.find((doc) => doc.id === id)]. *)
Definition getStandardById (m : t) (i : string) : option StandardDocument :=
  List.find (fun doc => String.eqb (id doc) i) (documents m).

(** [getStandardsByCategory]. *)
Definition getStandardsByCategory (m : t) (c : string) : list StandardMetadata :=
  List.map toMetadata
    (List.filter (fun doc => String.eqb (category doc) c) (documents m)).

(** [Array.from(new Set(...))]: the first occurrence of each value, in
    order of insertion. *)
Fixpoint setInsertionOrder (seen : list string) (l : list string) : list string :=
  match l with
  | [] => []
  | x :: l' =>
      if existsb (String.eqb x) seen then setInsertionOrder seen l'
      else x :: setInsertionOrder (x :: seen) l'
  end.

(** [getCategories]. *)
Definition getCategories (m : t) : list string :=
  setInsertionOrder [] (List.map category (documents m)).

(** One [for (const word of queryWords) if (f.includes(word)) relevance += w]
    loop. *)
Definition addMatches (field : string) (w : nat) (queryWords : list string)
    (relevance0 : nat) : nat :=
  fold_left (fun r word => if includes field word then r + w else r)
            queryWords relevance0.

(** The body of the loop over the documents: the score of one document. *)
Definition score (queryWords : list string) (doc : StandardDocument) : nat :=
  let relevance := 0 in
  let titleLower := toLowerCase (title doc) in
  let relevance := addMatches titleLower 10 queryWords relevance in
  let relevance :=
    match description doc with
    | Some d =>
        if truthy d
        then addMatches (toLowerCase d) 5 queryWords relevance
        else relevance
    | None => relevance
    end in
  let relevance :=
    fold_left (fun r tag => addMatches (toLowerCase tag) 7 queryWords r)
              (tags doc) relevance in
  let relevance :=
    addMatches (toLowerCase (category doc)) 3 queryWords relevance in
  let relevance :=
    addMatches (toLowerCase (content doc)) 1 queryWords relevance in
  relevance.

(** [query.toLowerCase().split(/\s+/).filter(Boolean)]. *)
Definition queryWords (query : string) : list string :=
  List.filter truthy (splitSpaces (toLowerCase query)).

(** [Array.prototype.sort] with the comparator
    [(a, b) => b.relevance - a.relevance]: the sort is stable (ES2019),
    so an element moves in front of another only when the comparator is
    positive for the pair in its present order. *)
Fixpoint insertSorted (x : SearchResult) (l : list SearchResult)
    : list SearchResult :=
  match l with
  | [] => [x]
  | y :: l' =>
      if (Z.of_nat (relevance y) - Z.of_nat (relevance x) <=? 0)%Z
      then x :: y :: l'
      else y :: insertSorted x l'
  end.

Definition sortByRelevance (l : list SearchResult) : list SearchResult :=
  fold_right insertSorted [] l.

Definition toResult (queryWords : list string) (doc : StandardDocument)
    : SearchResult :=
  {| sr_id := id doc; sr_title := title doc;
     sr_description := description doc; sr_category := category doc;
     relevance := score queryWords doc |}.

(** The loop of [searchStandards] that collects the matching documents. *)
Definition collect (queryWords : list string) (docs : list StandardDocument)
    : list SearchResult :=
  List.map (toResult queryWords)
    (List.filter (fun doc => (0 <? score queryWords doc)%nat) docs).

(** [searchStandards]. *)
Definition searchStandards (m : t) (query : string) : list SearchResult :=
  sortByRelevance (collect (queryWords query) (documents m)).

End Manager.

(** ** The search tool: [src/tools/resolve-standard.ts] *)

Module Tools.
Import JS.

(** The three message templates of [resolveStandard], with the values
    they interpolate. *)
Inductive Message :=
| MsgNoQuery
| MsgNotFound (query : string) (categories : list string)
| MsgFound (count : nat).

Record Resolved := {
  message : Message;
  results : list SearchResult;
  totalCount : nat
}.

(** [results.slice(0, 10)]. *)
Definition topResults (l : list SearchResult) : list SearchResult :=
  firstn 10 l.

(** [resolveStandard]. *)
Definition resolveStandard (manager : Manager.t) (query : string) : Resolved :=
  if negb (truthy query) || (String.length (trim query) =? 0)%nat then
    {| message := MsgNoQuery; results := []; totalCount := 0 |}
  else
    let found := Manager.searchStandards manager (trim query) in
    if (length found =? 0)%nat then
      {| message := MsgNotFound query (Manager.getCategories manager);
         results := []; totalCount := 0 |}
    else
      {| message := MsgFound (length found);
         results :=
           List.map (fun r =>
                       {| sr_id := sr_id r; sr_title := sr_title r;
                          sr_description := sr_description r;
                          sr_category := sr_category r;
                          relevance := relevance r |})
                    (topResults found);
         totalCount := length found |}.

End Tools.

(** ** The remote adapter *)

(** What both versions of [RemoteSource] share: the wire types, the
    network oracle and [transformStandards]. *)
Module Remote.
Import JS.

Record RemoteStandard := {
  rs_id : string;
  rs_title : string;
  rs_description : option string;
  rs_category : string;
  rs_subcategory : option string;
  rs_tags : option (list string);
  rs_content : string;
  rs_version : option string;
  rs_lastUpdated : option string
}.

(** [RemoteStandardsResponse]. *)
Record RemoteStandardsResponse := {
  standards : option (list RemoteStandard);
  data : option (list RemoteStandard)
}.

(** A [fetch] call: the URL and the headers sent. In
    [{ Accept: ..., ...this.headers }] an entry of the adapter's own
    headers overrides the one the call site puts first. *)
Record Request := {
  req_url : string;
  req_headers : gmap string string
}.

(** A settled [fetch]: [response.ok], and what [response.text()] and
    [response.json()] give ([None] when they reject). *)
Record Response := {
  ok : bool;
  text : option string;
  json : option RemoteStandardsResponse
}.

Definition markdownRequest (url : string) (headers : gmap string string)
    : Request :=
  {| req_url := url;
     req_headers :=
       headers ∪ {[ "Accept" := "text/plain, text/markdown, */*" ]} |}.

Definition apiRequest (url : string) (headers : gmap string string)
    : Request :=
  {| req_url := url;
     req_headers := headers ∪ {[ "Content-Type" := "application/json" ]} |}.

Section WithNetwork.
Variable matter : string -> Parser.MatterResult.
(** [fetchOracle n r]: what the [n]-th request of the run settles to;
    [None] when [fetch] rejects. *)
Variable fetchOracle : nat -> Request -> option Response.
(** [new URL(u).pathname]; [None] when the constructor throws. *)
Variable urlPathname : string -> option string.

(** A method of the adapter: it reads its fields and extends the log
    of the requests made. *)
Definition Net (A : Type) : Type := list Request -> A * list Request.

Definition fetch (r : Request) : Net (option Response) :=
  fun log => (fetchOracle (length log) r, log ++ [r]).

(** The [else] branch of [transformStandards]: the record is the
    document. *)
Definition direct (url : string) (st : RemoteStandard) : StandardDocument :=
  {| id := rs_id st; title := rs_title st;
     description := rs_description st; category := rs_category st;
     subcategory := rs_subcategory st; tags := default [] (rs_tags st);
     version := rs_version st; lastUpdated := rs_lastUpdated st;
     source := remote;
     path := JS.concat url (JS.concat "/" (rs_id st));
     content := rs_content st; frontmatter := emptyFrontMatter |}.

(** [transformStandards]: an exception of [parseMarkdown] leaves the
    loop. *)
Fixpoint transformStandards (url : string) (l : list RemoteStandard)
    (documents : list StandardDocument) : Outcome (list StandardDocument) :=
  match l with
  | [] => Returns documents
  | st :: rest =>
      if negb (truthy (rs_content st))
         || negb (Parser.isValidMarkdown (rs_content st))
      then transformStandards url rest documents
      else if startsWith (rs_content st) "---" then
        match Parser.parseMarkdown matter (rs_content st)
                (JS.concat (rs_category st)
                   (JS.concat "/" (JS.concat (rs_id st) ".md")))
                remote with
        | Returns doc => transformStandards url rest (documents ++ [doc])
        | Throws => Throws
        end
      else transformStandards url rest (documents ++ [direct url st])
  end.

(** [loadFromApi], which is also the whole [load] of
    [src/sources/remote.ts]: everything is inside one [try]. *)
Definition loadFromApi (url : string) (headers : gmap string string)
    : Net (list StandardDocument) :=
  fun log =>
    let '(r, log') := fetch (apiRequest url headers) log in
    match r with
    | None => ([], log')
    | Some response =>
        if negb (ok response) then ([], log')
        else
          match json response with
          | None => ([], log')
          | Some d =>
              let stds :=
                match standards d with
                | Some l => l
                | None => default [] (data d)
                end in
              match transformStandards url stds [] with
              | Returns docs => (docs, log')
              | Throws => ([], log')
              end
          end
    end.

(** [isMarkdownUrl]. *)
Definition isMarkdownUrl (url : string) : bool :=
  let lowerUrl := toLowerCase url in
  endsWith lowerUrl ".md" || endsWith lowerUrl ".markdown".

Definition setPath (p : string) (d : StandardDocument) : StandardDocument :=
  {| id := id d; title := title d; description := description d;
     category := category d; subcategory := subcategory d; tags := tags d;
     version := version d; lastUpdated := lastUpdated d;
     source := source d; path := p; content := content d;
     frontmatter := frontmatter d |}.

(** [loadMarkdownFile]: [None] is [null]. *)
Definition loadMarkdownFile (headers : gmap string string)
    (cfg : Manager.RemoteDocConfig) : Net (option StandardDocument) :=
  fun log =>
    let url := Manager.doc_url cfg in
    let '(r, log') := fetch (markdownRequest url headers) log in
    (match r with
     | None => None
     | Some response =>
         if negb (ok response) then None
         else
           match text response with
           | None => None
           | Some body =>
               if negb (Parser.isValidMarkdown body) then None
               else
                 match urlPathname url with
                 | None => None
                 | Some urlPath =>
                     let fileName :=
                       orDefault (last (splitChar "/"%char urlPath))
                                 "remote.md" in
                     let category :=
                       orDefault (Manager.doc_category cfg) "custom" in
                     let subcategory :=
                       orDefault (Manager.doc_subcategory cfg) "" in
                     let relativePath :=
                       if truthy subcategory
                       then JS.concat category
                              (JS.concat "/"
                                 (JS.concat subcategory
                                    (JS.concat "/" fileName)))
                       else JS.concat category
                              (JS.concat "/" fileName) in
                     match Parser.parseMarkdown matter body relativePath
                             remote with
                     | Returns doc => Some (setPath url doc)
                     | Throws => None
                     end
                 end
           end
     end, log').

(** The loop of mode 1 over [this.docs]. *)
Fixpoint loadDocs (headers : gmap string string)
    (l : list Manager.RemoteDocConfig) (documents : list StandardDocument)
    : Net (list StandardDocument) :=
  fun log =>
    match l with
    | [] => (documents, log)
    | doc :: rest =>
        let '(loaded, log') := loadMarkdownFile headers doc log in
        match loaded with
        | Some d => loadDocs headers rest (documents ++ [d]) log'
        | None => loadDocs headers rest documents log'
        end
    end.
End WithNetwork.

End Remote.

(** [RemoteSource.load] of [src/sources/remote.ts]: the constructor takes
    [url] and [headers] only, and [load] is the JSON API request. *)
Module RemoteSource.
Record t := { url : string; headers : gmap string string }.

(** [new RemoteSource(url, headers, docs)]: a third argument is not
    read. *)
Definition new (u : string) (h : option (gmap string string))
    (d : option (list Manager.RemoteDocConfig)) : t :=
  {| url := u; headers := default ∅ h |}.

Definition load matter fetchOracle (self : t)
    : Remote.Net (list StandardDocument) :=
  Remote.loadFromApi matter fetchOracle (url self) (headers self).
End RemoteSource.

(** [RemoteSource.load] of the version whose constructor takes the
    explicit [docs] list, as [StandardsManager.initialize] passes it. *)
Module RemoteSourceModes.
Record t := {
  url : string;
  headers : gmap string string;
  docs : list Manager.RemoteDocConfig
}.

Definition new (u : string) (h : option (gmap string string))
    (d : option (list Manager.RemoteDocConfig)) : t :=
  {| url := u; headers := default ∅ h; docs := default [] d |}.

Definition load matter fetchOracle urlPathname (self : t)
    : Remote.Net (list StandardDocument) :=
  fun log =>
    if (0 <? length (docs self))%nat then
      Remote.loadDocs matter fetchOracle urlPathname (headers self)
        (docs self) [] log
    else if Remote.isMarkdownUrl (url self) then
      let '(doc, log') :=
        Remote.loadMarkdownFile matter fetchOracle urlPathname (headers self)
          {| Manager.doc_url := url self; Manager.doc_category := None;
             Manager.doc_subcategory := None |} log in
      (match doc with Some d => [d] | None => [] end, log')
    else Remote.loadFromApi matter fetchOracle (url self) (headers self) log.
End RemoteSourceModes.

(** The three modes of the remote adapter, mode by mode, to compare
    [RemoteSource.load] with. *)
Module RemoteSpec.
Import JS.

Section WithNetwork.
Variable matter : string -> Parser.MatterResult.
Variable fetchOracle : nat -> Remote.Request -> option Remote.Response.
Variable urlPathname : string -> option string.






End WithNetwork.

End RemoteSpec.

(** ** More string and array primitives *)

Module Text.
Import JS.




(** [l.join(sep)]. *)
Fixpoint join (sep : string) (l : list string) : string :=
  match l with
  | [] => EmptyString
  | [x] => x
  | x :: l' => concat x (concat sep (join sep l'))
  end.

(** [Array.prototype.sort] with a comparator: stable, so an element is
    moved behind the elements that the comparator puts strictly before
    it and no others. *)
Fixpoint insertWith {A} (cmp : A -> A -> Z) (x : A) (l : list A) : list A :=
  match l with
  | [] => [x]
  | y :: l' =>
      if (cmp x y <=? 0)%Z then x :: y :: l' else y :: insertWith cmp x l'
  end.

Definition sortWith {A} (cmp : A -> A -> Z) (l : list A) : list A :=
  fold_right (insertWith cmp) [] l.

(** [l.indexOf(x)] on an array of strings. *)
Fixpoint arrayIndexOfFrom (i : nat) (l : list string) (x : string) : Z :=
  match l with
  | [] => (-1)%Z
  | y :: l' => if String.eqb y x then Z.of_nat i else arrayIndexOfFrom (S i) l' x
  end.

Definition arrayIndexOf (l : list string) (x : string) : Z :=
  arrayIndexOfFrom 0 l x.

End Text.

(** ** The search helpers: [src/utils/search.ts] *)

Module SearchUtil.
Import JS Text.

Section WithLowerCase.

(** [s.toLowerCase()] as [extractSnippet] meets it. Outside the code
    units below 256 the lower-casing of the runtime can make a string
    longer, so that a position found in the lower-cased content need not
    be the same position of the content; the function is read here for
    any lower-casing at all. *)
Variable toLowerCase : string -> string.




End WithLowerCase.

(** The two sets of [calculateSimilarity]. *)
Definition wordSet (str : string) : gset string :=
  list_to_set (splitSpaces (toLowerCase str)).

(** [calculateSimilarity] returns
    [intersection.size / union.size]; these are the two sizes. *)
Definition similaritySizes (str1 str2 : string) : nat * nat :=
  let set1 := wordSet str1 in
  let set2 := wordSet str2 in
  let intersection := filter (fun x => x ∈ set2) set1 in
  let union := set1 ∪ set2 in
  (size intersection, size union).

End SearchUtil.

(** ** The document tool: [src/tools/get-docs.ts] *)

Module GetDocs.
Import JS Text.

(** [line.match(/^(#{1,6})\s+(.+)$/)]: the second group. One to six [#]
    open the line, white space follows, and [(.+)] must reach the end of
    the line without meeting a line terminator; when only white space
    follows the [#]s, the greedy [\s+] gives its last character back. *)
Definition headingMatch (line : string) : option string :=
  let hashes := takeWhile (Ascii.eqb "#"%char) line in
  let rest := dropWhile (Ascii.eqb "#"%char) line in
  if ((1 <=? String.length hashes) && (String.length hashes <=? 6))%nat then
    let run := takeWhile isSpace rest in
    let after := dropWhile isSpace rest in
    match run, after with
    | EmptyString, _ => None
    | String _ _, String _ _ =>
        if existsChar isLineTerminator after then None else Some after
    | String _ run', EmptyString =>
        match String.rev run' with
        | String c _ =>
            if isLineTerminator c then None else Some (String c EmptyString)
        | EmptyString => None
        end
    end
  else None.

(** The state of the loop of [extractTopicContent]; a section is kept as
    its lines. *)
Record Scan := {
  extractedSections : list (list string);
  currentSection : list string;
  isRelevant : bool
}.

Definition flush (st : Scan) : list (list string) :=
  if isRelevant st && (0 <? length (currentSection st))%nat
  then extractedSections st ++ [currentSection st]
  else extractedSections st.

Definition step (topicLower : string) (st : Scan) (line : string) : Scan :=
  match headingMatch line with
  | Some currentHeading =>
      {| extractedSections := flush st;
         currentSection := [line];
         isRelevant := includes (toLowerCase currentHeading) topicLower |}
  | None =>
      {| extractedSections := extractedSections st;
         currentSection := currentSection st ++ [line];
         isRelevant :=
           if negb (isRelevant st) && includes (toLowerCase line) topicLower
           then true else isRelevant st |}
  end.

(** The sections that [extractTopicContent] collects. *)
Definition sections (content topic : string) : list (list string) :=
  flush
    (fold_left (step (toLowerCase topic)) (splitChar "010"%char content)
       {| extractedSections := []; currentSection := []; isRelevant := false |}).

(** The result of [extractTopicContent]: the sections joined, or the
    template that says nothing was found and gives the whole document. *)
Inductive TopicContent :=
| Extracted (text : string)
| NothingFound (topic content : string).

Definition newline : string := String "010"%char EmptyString.

(** [extractTopicContent]. *)
Definition extractTopicContent (content topic : string) : TopicContent :=
  let found := sections content topic in
  if (length found =? 0)%nat then NothingFound topic content
  else Extracted (join (concat newline newline) (List.map (join newline) found)).

End GetDocs.

(** ** The listing tool: [src/tools/list-standards.ts] *)

Module ListStandards.
Import JS Text.

Record StandardSummary := {
  ss_id : string;
  ss_title : string;
  ss_description : option string;
  ss_subcategory : option string;
  ss_tags : list string
}.

Record CategoryGroup := {
  cg_category : string;
  cg_count : nat;
  cg_standards : list StandardSummary
}.

Record Listing := {
  projectTitle : string;
  totalCount : nat;
  categories : list CategoryGroup
}.

Definition summary (s : Manager.StandardMetadata) : StandardSummary :=
  {| ss_id := Manager.md_id s; ss_title := Manager.md_title s;
     ss_description := Manager.md_description s;
     ss_subcategory := Manager.md_subcategory s;
     ss_tags := Manager.md_tags s |}.

(** The body of the first loop of [groupByCategory] on the [Map], whose
    keys stay in order of insertion: a new category goes to the end. *)
Fixpoint pushTo (category : string) (x : StandardSummary)
    (groups : list (string * list StandardSummary))
    : list (string * list StandardSummary) :=
  match groups with
  | [] => [(category, [x])]
  | (c, items) :: rest =>
      if String.eqb c category then (c, items ++ [x]) :: rest
      else (c, items) :: pushTo category x rest
  end.

Definition grouped (standards : list Manager.StandardMetadata)
    : list (string * list StandardSummary) :=
  fold_left (fun groups s => pushTo (Manager.md_category s) (summary s) groups)
            standards [].

Section WithCollation.
(** [a.localeCompare(b)], the collation of the runtime. *)
Variable localeCompare : string -> string -> Z.

(** The comparator of the last [sort]: [frontend], [backend], [custom],
    then the other categories by [localeCompare]. *)
Definition compareCategories (a b : CategoryGroup) : Z :=
  let order := ["frontend"; "backend"; "custom"] in
  let aIndex := arrayIndexOf order (cg_category a) in
  let bIndex := arrayIndexOf order (cg_category b) in
  if negb (aIndex =? -1)%Z && negb (bIndex =? -1)%Z then (aIndex - bIndex)%Z
  else if negb (aIndex =? -1)%Z then (-1)%Z
  else if negb (bIndex =? -1)%Z then 1%Z
  else localeCompare (cg_category a) (cg_category b).

(** [groupByCategory]. *)
Definition groupByCategory (standards : list Manager.StandardMetadata)
    : list CategoryGroup :=
  let result :=
    List.map
      (fun g : string * list StandardSummary =>
         {| cg_category := fst g;
            cg_count := length (snd g);
            cg_standards :=
              sortWith (fun a b => localeCompare (ss_title a) (ss_title b))
                       (snd g) |})
      (grouped standards) in
  sortWith compareCategories result.

(** [listStandards]. *)
Definition listStandards (manager : Manager.t) (category : option string)
    : Listing :=
  let standards :=
    match category with
    | Some c =>
        if truthy c then Manager.getStandardsByCategory manager c
        else Manager.getAllStandards manager
    | None => Manager.getAllStandards manager
    end in
  {| projectTitle := Manager.projectTitle (Manager.config manager);
     totalCount := length standards;
     categories := groupByCategory standards |}.
End WithCollation.

End ListStandards.

(** ** The resources of the server: [src/server.ts] *)

Module Server.
Import JS.

Record Resource := {
  uri : string;
  name : string;
  res_description : option string;
  mimeType : string
}.

(** The handler of [ListResourcesRequestSchema]. *)
Definition listResources (manager : Manager.t) : list Resource :=
  List.map
    (fun standard =>
       {| uri := concat "standard://" (Manager.md_id standard);
          name := Manager.md_title standard;
          res_description := Manager.md_description standard;
          mimeType := "text/markdown" |})
    (Manager.getAllStandards manager).

(** [uri.match(/^standard:\/\/(.+)$/)]: the group, which is not empty and
    holds no line terminator. *)
Definition resourceId (u : string) : option string :=
  if startsWith u "standard://" then
    let rest := drop 11 u in
    if truthy rest && negb (existsChar isLineTerminator rest)
    then Some rest else None
  else None.

(** What the handler of [ReadResourceRequestSchema] does: the contents,
    or one of its two errors. *)
Inductive ReadResult :=
| Contents (u mime text : string)
| InvalidUri (u : string)
| DocumentNotFound (standardId : string).

Definition readResource (manager : Manager.t) (u : string) : ReadResult :=
  match resourceId u with
  | None => InvalidUri u
  | Some standardId =>
      match Manager.getStandardById manager standardId with
      | None => DocumentNotFound standardId
      | Some document => Contents u "text/markdown" (content document)
      end
  end.

End Server.

(** ** The git adapter: [src/sources/git.ts] *)

Module Git.
Import JS.

Inductive ItemType := blob | tree.

Record GitHubTreeItem := {
  item_path : string;
  item_type : ItemType;
  item_url : string
}.

(** [isMarkdownFile]. *)
Definition isMarkdownFile (filePath : string) : bool :=
  let lowerPath := toLowerCase filePath in
  endsWith lowerPath ".md" || endsWith lowerPath ".markdown".

(** [isInPath], for an adapter whose [path] field is [path]. *)
Definition isInPath (path filePath : string) : bool :=
  if negb (truthy path) then true else startsWith filePath path.

Definition isBlob (t : ItemType) : bool :=
  match t with blob => true | tree => false end.

(** The filter of [load] on the tree of the repository. *)
Definition markdownFiles (path : string) (items : list GitHubTreeItem)
    : list GitHubTreeItem :=
  List.filter
    (fun item =>
       isBlob (item_type item) && isMarkdownFile (item_path item)
       && isInPath path (item_path item))
    items.

(** The path that [loadFile] hands to [parseMarkdown]. *)
Definition relativePath (path filePath : string) : string :=
  if truthy path && startsWith filePath path
  then stripPrefix "/" (drop (String.length path) filePath)
  else filePath.

End Git.

(** ** The topic filter as its effect *)

Module GetDocsSpec.
Import JS.

(** A line that makes its section relevant: a heading whose text holds
    the topic, or another line that holds it. *)
Definition relevantLine (topicLower : string) (line : string) : bool :=
  match GetDocs.headingMatch line with
  | Some heading => includes (toLowerCase heading) topicLower
  | None => includes (toLowerCase line) topicLower
  end.

(** The scan has a section to deliver: one is collected already, or the
    current one is relevant and not empty. *)
Definition collecting (st : GetDocs.Scan) : Prop :=
  GetDocs.extractedSections st <> []
  \/ (GetDocs.isRelevant st = true /\ GetDocs.currentSection st <> []).

End GetDocsSpec.

(** ** The listing as its effect *)

Module ListSpec.
Import ListStandards.

(** The summaries of the groups, each with the category of its group. *)
Definition members (groups : list (string * list StandardSummary))
    : list (string * StandardSummary) :=
  flat_map (fun g => List.map (pair (fst g)) (snd g)) groups.

Definition listed (groups : list CategoryGroup)
    : list (string * StandardSummary) :=
  flat_map (fun g => List.map (pair (cg_category g)) (cg_standards g)) groups.

(** The group that [groupByCategory] makes of one entry of its [Map]. *)
Definition toGroup (localeCompare : string -> string -> Z)
    (g : string * list StandardSummary) : CategoryGroup :=
  {| cg_category := fst g;
     cg_count := length (snd g);
     cg_standards :=
       Text.sortWith (fun a b => localeCompare (ss_title a) (ss_title b))
                     (snd g) |}.

End ListSpec.

(** ** The ranking as the specification words it *)

Module SearchSpec.
Import JS.

(** The terms of a query, read off the text from left to right: [cur]
    is the term being read. *)
Fixpoint termsFrom (cur : string) (s : string) : list string :=
  match s with
  | EmptyString => if truthy cur then [cur] else []
  | String c s' =>
      if isSpace c
      then (if truthy cur then cur :: termsFrom EmptyString s'
            else termsFrom EmptyString s')
      else termsFrom (JS.concat cur (String c EmptyString)) s'
  end.

(** The maximal runs of characters that are not white space. *)
Definition terms (s : string) : list string := termsFrom EmptyString s.

Definition weight (w : nat) (b : bool) : nat := if b then w else 0.

Definition inDescription (d : option string) (term : string) : bool :=
  match d with
  | Some x => includes (toLowerCase x) term
  | None => false
  end.

(** What one term adds to the relevance of one document. *)
Definition termScore (doc : StandardDocument) (term : string) : nat :=
  weight 10 (includes (toLowerCase (title doc)) term)
  + weight 5 (inDescription (description doc) term)
  + 7 * length (List.filter (fun tag => includes (toLowerCase tag) term)
                            (tags doc))
  + weight 3 (includes (toLowerCase (category doc)) term)
  + weight 1 (includes (toLowerCase (content doc)) term).

(** The relevance of a document: the sum over the terms. *)
Definition relevanceOf (ts : list string) (doc : StandardDocument) : nat :=
  list_sum (List.map (termScore doc) ts).

(** The entry of a matching document. *)
Definition entry (ts : list string) (doc : StandardDocument) : SearchResult :=
  {| sr_id := id doc; sr_title := title doc;
     sr_description := description doc; sr_category := category doc;
     relevance := relevanceOf ts doc |}.

(** The matching documents, in corpus order. *)
Definition matching (ts : list string) (docs : list StandardDocument)
    : list SearchResult :=
  List.map (entry ts)
    (List.filter (fun doc => negb (relevanceOf ts doc =? 0)%nat) docs).

Definition byRelevanceDesc (a b : SearchResult) : Prop :=
  relevance b <= relevance a.

Definition hasRelevance (r : nat) (x : SearchResult) : bool :=
  (relevance x =? r)%nat.

End SearchSpec.

(** ** The corpus as the specification words it *)

Module ManagerSpec.

Section WithOracle.
Variable loadOracle :
  nat -> Manager.DocumentSource -> Outcome (list StandardDocument).

(** The lists of documents of the adapters whose [load()] succeeds,
    in declared order, when the first adapter of [l] is the [n]-th
    adapter call of the run. *)
Fixpoint succeeded (n : nat) (l : list Manager.DocumentSource)
    : list (list StandardDocument) :=
  match l with
  | [] => []
  | src :: rest =>
      match loadOracle n src with
      | Returns docs => docs :: succeeded (S n) rest
      | Throws => succeeded (S n) rest
      end
  end.

Definition corpus (n : nat) (l : list Manager.DocumentSource)
    : list StandardDocument :=
  concat (succeeded n l).
End WithOracle.

End ManagerSpec.

(** ** Sample data *)

Module Sample.

Definition doc (i t : string) (tgs : list string) (cat p c : string)
    : StandardDocument :=
  {| id := i; title := t; description := None; category := cat;
     subcategory := None; tags := tgs; version := None;
     lastUpdated := None; source := local; path := p; content := c;
     frontmatter := emptyFrontMatter |}.

Definition vue : StandardDocument :=
  doc "frontend-vue-components" "Vue 3 components" ["vue"; "vue3"; "component"]
      "frontend" "frontend/vue/components.md" "# Vue 3 components".

Definition restful : StandardDocument :=
  doc "backend-api-restful" "RESTful API design" ["api"; "restful"; "http"]
      "backend" "backend/api/restful.md" "# RESTful API design".

(** Two documents that resolve to one id, from two sources. *)
Definition earlier : StandardDocument :=
  doc "team-rules" "Team rules" [] "custom" "custom/team-rules.md"
      "from the local tree".

Definition later : StandardDocument :=
  doc "team-rules" "Team rules" [] "custom" "custom/team-rules.md"
      "from the git repository".

Definition config3 : Manager.StandardsConfig :=
  {| Manager.projectTitle := "standards";
     Manager.sources :=
       [ Manager.LocalConfig "./standards";
         Manager.RemoteConfig "https://api.example.com/standards" None None;
         Manager.GitConfig "org/standards-repo" "main"
           (Some "docs/standards") None ];
     Manager.categories := ["frontend"; "backend"; "custom"];
     Manager.cacheTimeout := 3600 |}.

Definition config2 : Manager.StandardsConfig :=
  {| Manager.projectTitle := "standards";
     Manager.sources :=
       [ Manager.LocalConfig "./standards";
         Manager.GitConfig "org/standards-repo" "main" None None ];
     Manager.categories := ["custom"];
     Manager.cacheTimeout := 3600 |}.

(** The remote adapter fails; the two others deliver one document each. *)
Definition remoteDown (n : nat) (src : Manager.DocumentSource)
    : Outcome (list StandardDocument) :=
  match src with
  | Manager.LocalSource _ => Returns [vue]
  | Manager.RemoteSource _ _ _ => Throws
  | Manager.GitSource _ _ _ _ => Returns [restful]
  end.

Definition colliding (n : nat) (src : Manager.DocumentSource)
    : Outcome (list StandardDocument) :=
  match src with
  | Manager.LocalSource _ => Returns [earlier]
  | Manager.RemoteSource _ _ _ => Returns []
  | Manager.GitSource _ _ _ _ => Returns [later]
  end.

(** A clock that advances one millisecond per cache operation. *)
Definition ticking (n : nat) : Z := Z.of_nat n.

Definition loaded (docs : list StandardDocument) : Manager.t :=
  Manager.setDocuments docs (Manager.new config3).

(** The manager of [config3] once [initialize] has constructed its
    adapters. *)
Definition constructed : Manager.t :=
  Manager.setSources
    (List.map (Manager.construct None) (Manager.sources config3))
    (Manager.new config3).

(** The manager of [config2] after [initialize], when both adapters
    deliver a document with the id ["team-rules"]. *)
Definition collided : Manager.t :=
  fst (snd (Manager.initialize ticking colliding None
              (Manager.new config2, Manager.world0))).

(** A front-matter library that, as gray-matter does on a block its
    YAML engine refuses, throws on [bad], and returns any other text as
    a body without front matter. *)
Definition rejecting (bad : string) (s : string) : Parser.MatterResult :=
  if String.eqb s bad then Parser.MatterThrows
  else Parser.Parsed emptyFrontMatter s.

(** A front-matter block that is not YAML: an unclosed flow sequence. *)
Definition malformed : string :=
  "---
title: [unclosed
---
body".

Definition plain (s : string) : Parser.MatterResult :=
  Parser.Parsed emptyFrontMatter s.

(** A server that answers every request with one Markdown file. *)
Definition markdownServer (n : nat) (r : Remote.Request)
    : option Remote.Response :=
  Some {| Remote.ok := true;
          Remote.text := Some "# Vue 3

Use the composition API.";
          Remote.json := None |}.

Definition pathnameOf (u : string) : option string :=
  if JS.startsWith u "https://example.com"
  then Some (JS.drop 19 u) else None.

Definition vue3Url : string := "https://example.com/docs/vue3.md".

(** A record of the JSON API. *)
Definition record (i c : string) : Remote.RemoteStandard :=
  {| Remote.rs_id := i; Remote.rs_title := i; Remote.rs_description := None;
     Remote.rs_category := "custom"; Remote.rs_subcategory := None;
     Remote.rs_tags := None; Remote.rs_content := c;
     Remote.rs_version := None; Remote.rs_lastUpdated := None |}.

(** An answer of the JSON API whose second record has a front-matter
    block that is not YAML. *)
Definition apiData : Remote.RemoteStandardsResponse :=
  {| Remote.standards :=
       Some [record "a" "# A"; record "b" malformed; record "c" "# C"];
     Remote.data := None |}.

Definition apiResponse : Remote.Response :=
  {| Remote.ok := true; Remote.text := None; Remote.json := Some apiData |}.

Definition apiServer (n : nat) (r : Remote.Request) : option Remote.Response :=
  Some apiResponse.

(** Twelve documents that all match the query ["guide"] by their title;
    the last two match it by tags as well. *)
Definition guide (i : string) (tgs : list string) : StandardDocument :=
  doc i "Style guide" tgs "custom" (JS.concat i ".md") "# Style guide".

Definition dozen : list StandardDocument :=
  [ guide "g01" []; guide "g02" []; guide "g03" []; guide "g04" [];
    guide "g05" []; guide "g06" []; guide "g07" []; guide "g08" [];
    guide "g09" []; guide "g10" [];
    guide "g11" ["guide"]; guide "g12" ["guide"; "guides"] ].


End Sample.

(** * Properties *)

(** ** Strings *)

Section StringFacts.
Import JS.

Lemma isSpace_lowerChar c : isSpace (lowerChar c) = isSpace c.
Proof.
  destruct c as [[] [] [] [] [] [] [] []]; reflexivity.
Qed.

Lemma splitSpaces_cons s : exists w ws, splitSpaces s = w :: ws.
Proof.
  induction s as [|c s IH]; simpl; [eauto|].
  destruct IH as (w & ws & E).
  destruct (isSpace c).
  - destruct s as [|c' s']; [eauto|].
    destruct (isSpace c'); eauto.
  - rewrite E. eauto.
Qed.

Lemma splitSpaces_unfold c s :
  splitSpaces (String c s) =
  if isSpace c then
    match s with
    | String c' _ =>
        if isSpace c' then splitSpaces s else EmptyString :: splitSpaces s
    | EmptyString => EmptyString :: splitSpaces s
    end
  else
    match splitSpaces s with
    | w :: ws => String c w :: ws
    | [] => [String c EmptyString]
    end.
Proof. reflexivity. Qed.

(** A white space character in front leaves an empty first piece and
    the same non-empty pieces. *)
Lemma splitSpaces_space c s :
  isSpace c = true ->
  exists ws, splitSpaces (String c s) = EmptyString :: ws
             /\ List.filter truthy ws = List.filter truthy (splitSpaces s).
Proof.
  revert c. induction s as [|c' s IH]; intros c Hc.
  - simpl. rewrite Hc. eauto.
  - rewrite splitSpaces_unfold, Hc.
    destruct (isSpace c') eqn:Hc'; [|eauto].
    destruct (IH c' Hc') as (ws & E & F).
    exists ws. rewrite E. split; reflexivity.
Qed.

Lemma splitSpaces_char c s w ws :
  isSpace c = false -> splitSpaces s = w :: ws ->
  splitSpaces (String c s) = String c w :: ws.
Proof. intros Hc E. simpl. rewrite Hc, E. reflexivity. Qed.

Lemma append_empty_r s : JS.concat s EmptyString = s.
Proof. induction s; simpl; congruence. Qed.

Lemma append_assoc a b c :
  JS.concat (JS.concat a b) c = JS.concat a (JS.concat b c).
Proof. induction a; simpl; congruence. Qed.

Lemma truthy_append_char cur c :
  truthy (JS.concat cur (String c EmptyString)) = true.
Proof. destruct cur; reflexivity. Qed.

(** The pieces of [split(/\s+/)] that [filter(Boolean)] keeps are the
    terms read from left to right. *)
Lemma filter_splitSpaces_termsFrom s : forall cur w ws,
  splitSpaces s = w :: ws ->
  List.filter truthy (JS.concat cur w :: ws) = SearchSpec.termsFrom cur s.
Proof.
  induction s as [|c s IH]; intros cur w ws E.
  - simpl in E. injection E as <- <-. simpl. rewrite append_empty_r.
    destruct (truthy cur); reflexivity.
  - cbn [SearchSpec.termsFrom]. destruct (isSpace c) eqn:Hc.
    + destruct (splitSpaces_space c s Hc) as (ws0 & E0 & F0).
      rewrite E0 in E. injection E as <- <-.
      destruct (splitSpaces_cons s) as (w' & ws' & E').
      specialize (IH EmptyString w' ws' E'). simpl in IH.
      cbn [List.filter]. rewrite append_empty_r, F0, E'.
      cbn [List.filter]. rewrite IH.
      destruct (truthy cur); reflexivity.
    + destruct (splitSpaces_cons s) as (w' & ws' & E').
      rewrite (splitSpaces_char c s w' ws' Hc E') in E.
      injection E as <- <-.
      rewrite <- (IH _ w' ws' E'), append_assoc. reflexivity.
Qed.

Lemma filter_splitSpaces s :
  List.filter truthy (splitSpaces s) = SearchSpec.terms s.
Proof.
  destruct (splitSpaces_cons s) as (w & ws & E). rewrite E.
  apply (filter_splitSpaces_termsFrom s EmptyString w ws E).
Qed.

Lemma existsChar_append f a b :
  existsChar f (JS.concat a b) = existsChar f a || existsChar f b.
Proof.
  induction a as [|c a IH]; simpl; [reflexivity|].
  rewrite IH. apply orb_assoc.
Qed.

Lemma termsFrom_wellformed s : forall cur,
  existsChar isSpace cur = false ->
  Forall (fun w => truthy w = true /\ existsChar isSpace w = false)
         (SearchSpec.termsFrom cur s).
Proof.
  induction s as [|c s IH]; intros cur Hcur; simpl.
  - destruct (truthy cur) eqn:T; constructor; auto.
  - destruct (isSpace c) eqn:Hc.
    + destruct (truthy cur) eqn:T; [constructor; auto|]; apply IH; reflexivity.
    + apply IH. rewrite existsChar_append, Hcur. simpl. rewrite Hc. reflexivity.
Qed.

Lemma allSpace_lower s : allSpace (toLowerCase s) = allSpace s.
Proof.
  induction s as [|c s IH]; simpl; [reflexivity|].
  rewrite isSpace_lowerChar. unfold toLowerCase in IH. rewrite IH. reflexivity.
Qed.

Lemma toLowerCase_trimStart s :
  toLowerCase (trimStart s) = trimStart (toLowerCase s).
Proof.
  induction s as [|c s IH]; simpl; [reflexivity|].
  rewrite isSpace_lowerChar. destruct (isSpace c); [exact IH|reflexivity].
Qed.

Lemma toLowerCase_trimEnd s :
  toLowerCase (trimEnd s) = trimEnd (toLowerCase s).
Proof.
  induction s as [|c s IH]; [reflexivity|].
  cbn [trimEnd toLowerCase mapChars allSpace].
  rewrite isSpace_lowerChar.
  change (mapChars lowerChar s) with (toLowerCase s).
  rewrite allSpace_lower.
  destruct (isSpace c && allSpace s); [reflexivity|].
  cbn [toLowerCase mapChars]. f_equal. exact IH.
Qed.

Lemma toLowerCase_trim s : toLowerCase (trim s) = trim (toLowerCase s).
Proof.
  unfold trim. rewrite toLowerCase_trimEnd, toLowerCase_trimStart. reflexivity.
Qed.

Lemma terms_trimStart s :
  SearchSpec.terms (trimStart s) = SearchSpec.terms s.
Proof.
  induction s as [|c s IH]; simpl; [reflexivity|].
  destruct (isSpace c) eqn:Hc; [|reflexivity].
  rewrite IH. unfold SearchSpec.terms. simpl. rewrite Hc. reflexivity.
Qed.

Lemma termsFrom_allSpace s : forall cur,
  allSpace s = true ->
  SearchSpec.termsFrom cur s = if truthy cur then [cur] else [].
Proof.
  induction s as [|c s IH]; intros cur H; simpl; [reflexivity|].
  simpl in H. apply andb_true_iff in H as [Hc Hs]. rewrite Hc.
  rewrite (IH EmptyString Hs). reflexivity.
Qed.

Lemma termsFrom_trimEnd s : forall cur,
  SearchSpec.termsFrom cur (trimEnd s) = SearchSpec.termsFrom cur s.
Proof.
  induction s as [|c s IH]; intros cur; [reflexivity|].
  cbn [trimEnd]. destruct (allSpace (String c s)) eqn:A.
  - rewrite (termsFrom_allSpace _ cur A). reflexivity.
  - cbn [SearchSpec.termsFrom]. rewrite !IH. reflexivity.
Qed.

Lemma terms_trim s : SearchSpec.terms (trim s) = SearchSpec.terms s.
Proof.
  unfold trim, SearchSpec.terms. rewrite termsFrom_trimEnd.
  apply terms_trimStart.
Qed.

End StringFacts.

(** ** Search and ranking *)

Section SearchFacts.
Import JS SearchSpec.

Lemma list_sum_add {A} (f g : A -> nat) l :
  list_sum (List.map (fun x => f x + g x) l)
  = list_sum (List.map f l) + list_sum (List.map g l).
Proof. induction l as [|x l IH]; simpl; lia. Qed.

Lemma list_sum_zero {A} (f : A -> nat) l :
  Forall (fun x => f x = 0) l -> list_sum (List.map f l) = 0.
Proof. induction 1; simpl; lia. Qed.

Lemma addMatches_sum field w ws : forall r0,
  Manager.addMatches field w ws r0
  = r0 + list_sum (List.map (fun t => weight w (includes field t)) ws).
Proof.
  unfold Manager.addMatches.
  induction ws as [|t ws IH]; intros r0; simpl; [lia|].
  rewrite IH. unfold weight. destruct (includes field t); lia.
Qed.

Lemma tags_sum ws tgs : forall r0,
  fold_left (fun r tag => Manager.addMatches (toLowerCase tag) 7 ws r) tgs r0
  = r0 + list_sum
           (List.map
              (fun t => 7 * length (List.filter
                                      (fun tag => includes (toLowerCase tag) t)
                                      tgs)) ws).
Proof.
  induction tgs as [|tag tgs IH]; intros r0; cbn [fold_left].
  - rewrite list_sum_zero; [lia|]. apply Forall_forall. reflexivity.
  - rewrite IH, addMatches_sum, <- Nat.add_assoc, <- list_sum_add.
    f_equal. f_equal. apply map_ext. intros t. cbn [List.filter].
    unfold weight. destruct (includes (toLowerCase tag) t); simpl; lia.
Qed.

Lemma includes_empty t : truthy t = true -> includes EmptyString t = false.
Proof. destruct t; [discriminate|reflexivity]. Qed.

Lemma description_sum d ws r0 :
  Forall (fun w => truthy w = true) ws ->
  match d with
  | Some x =>
      if truthy x then Manager.addMatches (toLowerCase x) 5 ws r0 else r0
  | None => r0
  end
  = r0 + list_sum (List.map (fun t => weight 5 (inDescription d t)) ws).
Proof.
  intros Hws. destruct d as [x|].
  - destruct x as [|c x]; cbn [truthy].
    + rewrite list_sum_zero; [lia|].
      eapply List.Forall_impl; [|exact Hws]. intros t Ht.
      unfold inDescription. change (toLowerCase EmptyString) with EmptyString.
      rewrite (includes_empty t Ht). reflexivity.
    + apply addMatches_sum.
  - rewrite list_sum_zero; [lia|]. apply Forall_forall. reflexivity.
Qed.

(** The loops of [searchStandards] go field by field; the sum can be
    taken term by term. *)
Lemma score_relevanceOf ws doc :
  Forall (fun w => truthy w = true) ws ->
  Manager.score ws doc = relevanceOf ws doc.
Proof.
  intros Hws. unfold Manager.score, relevanceOf, termScore. cbv zeta.
  rewrite !addMatches_sum, tags_sum, (description_sum _ _ _ Hws).
  rewrite !list_sum_add. lia.
Qed.

Lemma queryWords_terms q : Manager.queryWords q = terms (toLowerCase q).
Proof. apply filter_splitSpaces. Qed.

Lemma terms_wellformed s :
  Forall (fun w => truthy w = true /\ existsChar isSpace w = false) (terms s).
Proof. apply termsFrom_wellformed. reflexivity. Qed.

Lemma terms_truthy s : Forall (fun w => truthy w = true) (terms s).
Proof.
  eapply List.Forall_impl; [|apply terms_wellformed]. intros w [H _]. exact H.
Qed.

Lemma collect_matching q docs :
  Manager.collect (Manager.queryWords q) docs
  = matching (terms (toLowerCase q)) docs.
Proof.
  rewrite queryWords_terms. unfold Manager.collect, matching.
  pose proof (terms_truthy (toLowerCase q)) as Hws.
  induction docs as [|d docs IH]; [reflexivity|].
  cbn [List.filter]. rewrite (score_relevanceOf _ d Hws).
  destruct (relevanceOf (terms (toLowerCase q)) d) eqn:E; simpl.
  - exact IH.
  - rewrite IH. f_equal. unfold Manager.toResult, entry.
    rewrite (score_relevanceOf _ d Hws), E. reflexivity.
Qed.

Lemma insertSorted_perm x l : Permutation (Manager.insertSorted x l) (x :: l).
Proof.
  induction l as [|y l IH]; simpl; [reflexivity|].
  destruct (_ <=? _)%Z; [reflexivity|].
  rewrite IH. apply perm_swap.
Qed.

Lemma sortByRelevance_perm l : Permutation (Manager.sortByRelevance l) l.
Proof.
  induction l as [|x l IH]; simpl; [reflexivity|].
  rewrite insertSorted_perm. apply perm_skip, IH.
Qed.

Lemma insertSorted_sorted x l :
  StronglySorted byRelevanceDesc l ->
  StronglySorted byRelevanceDesc (Manager.insertSorted x l).
Proof.
  induction 1 as [|y l Hl IH Hy]; simpl.
  - repeat constructor.
  - destruct (_ <=? _)%Z eqn:E.
    + apply Z.leb_le in E. constructor; [constructor; assumption|].
      constructor; [unfold byRelevanceDesc; lia|].
      eapply List.Forall_impl; [|exact Hy]. unfold byRelevanceDesc. intros; lia.
    + apply Z.leb_gt in E. constructor; [exact IH|].
      eapply Permutation_Forall; [symmetry; apply insertSorted_perm|].
      constructor; [unfold byRelevanceDesc; lia|exact Hy].
Qed.

Lemma sortByRelevance_sorted l :
  StronglySorted byRelevanceDesc (Manager.sortByRelevance l).
Proof.
  induction l as [|x l IH]; simpl; [constructor|].
  apply insertSorted_sorted, IH.
Qed.

(** An element is only moved behind elements of greater relevance. *)
Lemma insertSorted_stable r x l :
  List.filter (hasRelevance r) (Manager.insertSorted x l)
  = List.filter (hasRelevance r) (x :: l).
Proof.
  induction l as [|y l IH]; [reflexivity|].
  cbn [Manager.insertSorted]. destruct (_ <=? _)%Z eqn:E; [reflexivity|].
  apply Z.leb_gt in E. cbn [List.filter] in *. rewrite IH.
  unfold hasRelevance.
  destruct (relevance x =? r)%nat eqn:Ex, (relevance y =? r)%nat eqn:Ey;
    try reflexivity.
  apply Nat.eqb_eq in Ex, Ey. lia.
Qed.

Lemma sortByRelevance_stable r l :
  List.filter (hasRelevance r) (Manager.sortByRelevance l)
  = List.filter (hasRelevance r) l.
Proof.
  induction l as [|x l IH]; [reflexivity|].
  cbn [Manager.sortByRelevance fold_right].
  rewrite insertSorted_stable. cbn [List.filter].
  unfold Manager.sortByRelevance in IH. rewrite IH. reflexivity.
Qed.

End SearchFacts.

(** C1. For every corpus and every query, [searchStandards] works on the
    terms of the lower-cased query, which are its maximal runs of
    characters that are not white space (none is empty); the entries it
    returns are those of the documents whose relevance, the sum over the
    terms of 10 for the title, 5 for the description, 7 for each tag, 3
    for the category and 1 for the content that contain the term, is not
    0; they are in descending order of relevance, and the entries of one
    relevance are in corpus order. *)
Theorem searchStandards_ranking (m : Manager.t) (query : string) :
  let ts := SearchSpec.terms (JS.toLowerCase query) in
  Manager.queryWords query = ts
  /\ Forall (fun w => JS.truthy w = true /\ JS.existsChar JS.isSpace w = false) ts
  /\ Permutation (Manager.searchStandards m query)
                 (SearchSpec.matching ts (Manager.documents m))
  /\ StronglySorted SearchSpec.byRelevanceDesc (Manager.searchStandards m query)
  /\ (forall r,
        List.filter (SearchSpec.hasRelevance r) (Manager.searchStandards m query)
        = List.filter (SearchSpec.hasRelevance r)
                      (SearchSpec.matching ts (Manager.documents m))).
Proof.
  cbv zeta. unfold Manager.searchStandards. rewrite collect_matching.
  repeat split.
  - apply queryWords_terms.
  - apply terms_wellformed.
  - apply sortByRelevance_perm.
  - apply sortByRelevance_sorted.
  - intros r. apply sortByRelevance_stable.
Qed.

(** ** The cache *)

Section CacheFacts.
Context {T : Type}.
Implicit Types (c : Cache.t T) (key : string) (now : Z).

Lemma set_store now key (v : T) ttl c :
  Cache.store (Cache.set now key v ttl c)
  = <[key := {| Cache.data := v; Cache.timestamp := now;
                Cache.expiresAt := (now + default (Cache.defaultTTL c) ttl)%Z |}]>
      (Cache.store c).
Proof. reflexivity. Qed.

Lemma set_other now key key' (v : T) ttl c :
  key <> key' ->
  Cache.store (Cache.set now key v ttl c) !! key' = Cache.store c !! key'.
Proof. intros H. rewrite set_store. apply lookup_insert_ne, H. Qed.

Lemma get_eq now key c :
  Cache.get now key c =
  match Cache.store c !! key with
  | Some e =>
      if (now <=? Cache.expiresAt e)%Z then (Some (Cache.data e), c)
      else (None, Cache.withStore c (delete key (Cache.store c)))
  | None => (None, c)
  end.
Proof.
  unfold Cache.get. destruct (Cache.store c !! key) as [e|]; [|reflexivity].
  destruct (Z.gtb_spec now (Cache.expiresAt e)), (Z.leb_spec now (Cache.expiresAt e));
    try reflexivity; lia.
Qed.

End CacheFacts.

(** C2. [set] stores the entry with expiry [now + (ttl ?? defaultTTL)]
    over whatever the key held; a [get] at [now'] gives the value back and
    leaves the cache as it is when [now' <= expiry], and otherwise reports
    it absent and removes the entry, the other keys staying; so a [set]
    with 1000 ms followed by a [get] 1100 ms later, or with 500 ms and 600
    ms later, finds nothing. *)
Theorem cache_set_get {T : Type} (c : Cache.t T) (key : string) (v : T)
    (ttl : option Z) (now now' : Z) :
  let expiry := (now + default (Cache.defaultTTL c) ttl)%Z in
  let c1 := Cache.set now key v ttl c in
  Cache.store c1
  = <[key := {| Cache.data := v; Cache.timestamp := now;
                Cache.expiresAt := expiry |}]> (Cache.store c)
  /\ Cache.store c1 !! key
     = Some {| Cache.data := v; Cache.timestamp := now; Cache.expiresAt := expiry |}
  /\ Cache.get now' key c1
     = (if (now' <=? expiry)%Z
        then (Some v, c1)
        else (None, Cache.withStore c1 (delete key (Cache.store c))))
  /\ (if (now' <=? expiry)%Z then True
      else Cache.store (snd (Cache.get now' key c1)) !! key = None)
  /\ Cache.get (now + 1100) key (Cache.set now key v (Some 1000%Z) c)
     = (None, Cache.withStore c (delete key (Cache.store c)))
  /\ Cache.get (now + 600) key (Cache.set now key v (Some 500%Z) c)
     = (None, Cache.withStore c (delete key (Cache.store c))).
Proof.
  cbv zeta.
  assert (G : forall t n',
    Cache.get n' key (Cache.set now key v t c)
    = (if (n' <=? now + default (Cache.defaultTTL c) t)%Z
       then (Some v, Cache.set now key v t c)
       else (None, Cache.withStore (Cache.set now key v t c)
                     (delete key (Cache.store c))))).
  { intros t n'. rewrite get_eq, set_store, lookup_insert_eq. cbn [Cache.expiresAt Cache.data].
    destruct (n' <=? _)%Z; [reflexivity|].
    rewrite delete_insert_eq. reflexivity. }
  repeat split.
  - rewrite set_store. apply lookup_insert_eq.
  - apply G.
  - rewrite G. destruct (now' <=? _)%Z; [exact I|].
    cbn. apply lookup_delete_eq.
  - rewrite G. change (default _ (Some 1000%Z)) with 1000%Z.
    destruct (Z.leb_spec (now + 1100) (now + 1000)); [lia|reflexivity].
  - rewrite G. change (default _ (Some 500%Z)) with 500%Z.
    destruct (Z.leb_spec (now + 600) (now + 500)); [lia|reflexivity].
Qed.

(** ** The aggregator *)

Ltac mgr_simpl :=
  cbn [fst snd Manager.setCache Manager.setDocuments Manager.setSources
       Manager.setInitialized Manager.cache Manager.config Manager.documents
       Manager.srcs Manager.initialized Manager.cacheOps Manager.loadLog
       app length] in *.

Section ManagerFacts.
Import Manager ManagerSpec.
Variable clock : nat -> Z.
Variable loadOracle : nat -> DocumentSource -> Outcome (list StandardDocument).
Variable GITHUB_TOKEN : option string.

Lemma loadEach_run l : forall acc m w,
  loadEach loadOracle l acc (m, w)
  = (acc ++ corpus loadOracle (length (loadLog w)) l,
     (m, {| cacheOps := cacheOps w; loadLog := loadLog w ++ l |})).
Proof.
  unfold corpus.
  induction l as [|src l IH]; intros acc m w.
  - simpl. rewrite !app_nil_r. destruct w; reflexivity.
  - cbn [loadEach succeeded]. unfold bind, callLoad. cbn [fst snd].
    destruct (loadOracle (length (loadLog w)) src) as [docs|];
      rewrite IH; cbn [loadLog cacheOps];
      rewrite length_app, Nat.add_1_r; cbn [concat];
      rewrite <- ?app_assoc; reflexivity.
Qed.

(** [loadDocuments] when the cache has no live entry. *)
Lemma loadDocuments_miss m w :
  fst (Cache.get (clock (cacheOps w)) "all-documents" (cache m)) = None ->
  loadDocuments clock loadOracle (m, w)
  = let c := snd (Cache.get (clock (cacheOps w)) "all-documents" (cache m)) in
    let docs := corpus loadOracle (length (loadLog w)) (srcs m) in
    (tt, ({| config := config m;
             cache := Cache.set (clock (S (cacheOps w))) "all-documents"
                        docs None c;
             documents := docs; srcs := srcs m;
             initialized := initialized m |},
          {| cacheOps := S (S (cacheOps w)); loadLog := loadLog w ++ srcs m |})).
Proof.
  intros H. unfold loadDocuments, cacheGet, bind, Date_now, this, update, ret.
  cbn [fst snd cacheOps loadLog].
  destruct (Cache.get _ _ _) as [v c] eqn:E. cbn [fst snd] in *. subst v.
  unfold cacheSet, bind, Date_now, update. cbn [fst snd srcs setCache].
  rewrite loadEach_run. cbn [fst snd cacheOps loadLog app].
  reflexivity.
Qed.

(** [loadDocuments] when the cache has a live entry. *)
Lemma loadDocuments_hit m w docs :
  fst (Cache.get (clock (cacheOps w)) "all-documents" (cache m)) = Some docs ->
  loadDocuments clock loadOracle (m, w)
  = (tt, ({| config := config m;
             cache := snd (Cache.get (clock (cacheOps w)) "all-documents"
                             (cache m));
             documents := docs; srcs := srcs m;
             initialized := initialized m |},
          {| cacheOps := S (cacheOps w); loadLog := loadLog w |})).
Proof.
  intros H. unfold loadDocuments, cacheGet, bind, Date_now, this, update, ret.
  cbn [fst snd cacheOps loadLog].
  destruct (Cache.get _ _ _) as [v c] eqn:E. cbn [fst snd] in *. subst v.
  reflexivity.
Qed.

Lemma corpus_app n l1 l2 :
  corpus loadOracle n (l1 ++ l2)
  = corpus loadOracle n l1 ++ corpus loadOracle (n + length l1) l2.
Proof.
  unfold corpus. revert n.
  induction l1 as [|src l1 IH]; intros n; cbn [app succeeded length].
  - rewrite Nat.add_0_r. reflexivity.
  - replace (n + S (length l1)) with (S n + length l1) by lia.
    destruct (loadOracle n src); cbn [concat]; rewrite IH, ?app_assoc;
      reflexivity.
Qed.

Lemma corpus_throws n src l :
  loadOracle n src = Throws ->
  corpus loadOracle n (src :: l) = corpus loadOracle (S n) l.
Proof. intros H. unfold corpus. cbn [succeeded]. rewrite H. reflexivity. Qed.

Lemma corpus_returns n src l docs :
  loadOracle n src = Returns docs ->
  corpus loadOracle n (src :: l) = docs ++ corpus loadOracle (S n) l.
Proof. intros H. unfold corpus. cbn [succeeded]. rewrite H. reflexivity. Qed.

Lemma get_new_empty now key (ttl : option Z) :
  Cache.get now key (Cache.new (T := list StandardDocument) ttl)
  = (None, Cache.new ttl).
Proof. rewrite get_eq. cbn [Cache.new Cache.store]. rewrite lookup_empty. reflexivity. Qed.

Lemma initialize_done s :
  initialized (fst s) = true ->
  initialize clock loadOracle GITHUB_TOKEN s = (tt, s).
Proof.
  intros H. unfold initialize, bind, this. rewrite H. destruct s; reflexivity.
Qed.

Lemma initialize_sets_flag s :
  initialized (fst (snd (initialize clock loadOracle GITHUB_TOKEN s))) = true.
Proof.
  unfold initialize, bind, this.
  destruct (initialized (fst s)) eqn:E; [exact E|].
  unfold update. cbn [fst snd].
  destruct (loadDocuments _ _ _) as [u [m2 w2]]. reflexivity.
Qed.

(** The first [initialize] of a new manager: nothing is cached, so
    every adapter is constructed and loaded once. *)
Lemma initialize_new cfg :
  initialize clock loadOracle GITHUB_TOKEN (new cfg, world0)
  = let l := List.map (construct GITHUB_TOKEN) (sources cfg) in
    let docs := corpus loadOracle 0 l in
    (tt, ({| config := cfg;
             cache := Cache.set (clock 1%nat) "all-documents" docs None
                        (Cache.new (Some (cacheTimeout cfg * 1000)%Z));
             documents := docs; srcs := l; initialized := true |},
          {| cacheOps := 2; loadLog := l |})).
Proof.
  unfold initialize, bind, this, update, new, world0. mgr_simpl.
  rewrite loadDocuments_miss; mgr_simpl; rewrite get_new_empty; reflexivity.
Qed.

End ManagerFacts.

(** C3. When [loadDocuments] finds no live cache entry, it calls the
    [load()] of every adapter once, in declared order, whatever the
    earlier ones did; the corpus is the concatenation, in that order, of
    the lists of the adapters whose [load()] succeeded, so an adapter
    whose [load()] rejects adds nothing and the adapters on either side of
    it add what they do without it; and that corpus is what the cache
    then holds. *)
Theorem loadDocuments_partial_failure
    (clock : nat -> Z)
    (loadOracle : nat -> Manager.DocumentSource -> Outcome (list StandardDocument))
    (m : Manager.t) (w : Manager.World) :
  fst (Cache.get (clock (Manager.cacheOps w)) "all-documents" (Manager.cache m))
  = None ->
  let s' := snd (Manager.loadDocuments clock loadOracle (m, w)) in
  let n := length (Manager.loadLog w) in
  Manager.documents (fst s') = ManagerSpec.corpus loadOracle n (Manager.srcs m)
  /\ Manager.loadLog (snd s') = Manager.loadLog w ++ Manager.srcs m
  /\ (forall l1 src l2,
        Manager.srcs m = l1 ++ src :: l2 ->
        loadOracle (n + length l1) src = Throws ->
        Manager.documents (fst s')
        = ManagerSpec.corpus loadOracle n l1
          ++ ManagerSpec.corpus loadOracle (S (n + length l1)) l2)
  /\ Cache.data <$> (Cache.store (Manager.cache (fst s')) !! "all-documents")
     = Some (Manager.documents (fst s'))
  /\ Manager.srcs (fst s') = Manager.srcs m.
Proof.
  intros H. cbv zeta. rewrite (loadDocuments_miss _ _ _ _ H).
  mgr_simpl. repeat split.
  - intros l1 src l2 E F. rewrite E, corpus_app, (corpus_throws _ _ _ _ F).
    reflexivity.
  - rewrite set_store, lookup_insert_eq. reflexivity.
Qed.

(** C6. [initialize] leaves the manager initialized, and a second
    [initialize] then changes nothing: the corpus, the sources, the cache,
    the flag and the log of the adapter calls are what the first call left.
    For a new manager the two calls together call the [load()] of each
    configured adapter exactly once. *)
Theorem initialize_idempotent
    (clock : nat -> Z)
    (loadOracle : nat -> Manager.DocumentSource -> Outcome (list StandardDocument))
    (GITHUB_TOKEN : option string)
    (s : Manager.t * Manager.World) (cfg : Manager.StandardsConfig) :
  let init := Manager.initialize clock loadOracle GITHUB_TOKEN in
  let s1 := snd (init s) in
  let f1 := snd (init (Manager.new cfg, Manager.world0)) in
  Manager.initialized (fst s1) = true
  /\ init s1 = (tt, s1)
  /\ init f1 = (tt, f1)
  /\ Manager.loadLog (snd (snd (init f1)))
     = List.map (Manager.construct GITHUB_TOKEN) (Manager.sources cfg).
Proof.
  cbv zeta. split; [apply initialize_sets_flag|].
  split; [apply initialize_done, initialize_sets_flag|].
  split; [apply initialize_done, initialize_sets_flag|].
  rewrite initialize_done by apply initialize_sets_flag.
  rewrite initialize_new. reflexivity.
Qed.

(** C10. [refresh] on a new manager caches the empty list under
    ["all-documents"]; an [initialize] that reads the cache no later than
    the expiry of that entry constructs the adapters, calls no [load()],
    and leaves the corpus empty. *)
Theorem refresh_before_initialize
    (clock : nat -> Z)
    (loadOracle : nat -> Manager.DocumentSource -> Outcome (list StandardDocument))
    (GITHUB_TOKEN : option string) (cfg : Manager.StandardsConfig) :
  (clock 2%nat <= clock 1%nat + Manager.cacheTimeout cfg * 1000)%Z ->
  let s1 := snd (Manager.refresh clock loadOracle (Manager.new cfg, Manager.world0)) in
  let s2 := snd (Manager.initialize clock loadOracle GITHUB_TOKEN s1) in
  Cache.store (Manager.cache (fst s1)) !! "all-documents"
  = Some {| Cache.data := []; Cache.timestamp := clock 1%nat;
            Cache.expiresAt := (clock 1%nat + Manager.cacheTimeout cfg * 1000)%Z |}
  /\ Manager.srcs (fst s1) = []
  /\ Manager.documents (fst s2) = []
  /\ Manager.loadLog (snd s2) = []
  /\ Manager.srcs (fst s2)
     = List.map (Manager.construct GITHUB_TOKEN) (Manager.sources cfg)
  /\ Manager.initialized (fst s2) = true.
Proof.
  intros Hlive. cbv zeta.
  assert (R : Manager.refresh clock loadOracle (Manager.new cfg, Manager.world0)
    = (tt, ({| Manager.config := cfg;
               Manager.cache :=
                 Cache.set (clock 1%nat) "all-documents" [] None
                   (Cache.new (Some (Manager.cacheTimeout cfg * 1000)%Z));
               Manager.documents := []; Manager.srcs := [];
               Manager.initialized := false |},
            {| Manager.cacheOps := 2; Manager.loadLog := [] |}))).
  { unfold Manager.refresh, Manager.bind, Manager.update, Manager.new,
      Manager.world0.
    mgr_simpl.
    rewrite loadDocuments_miss; mgr_simpl;
      change (Cache.clear (Cache.new (Some (Manager.cacheTimeout cfg * 1000)%Z)))
        with (Cache.new (T := list StandardDocument)
                (Some (Manager.cacheTimeout cfg * 1000)%Z));
      rewrite get_new_empty; reflexivity. }
  rewrite R. mgr_simpl.
  split; [rewrite set_store; apply lookup_insert_eq|].
  split; [reflexivity|].
  set (c1 := Cache.set (clock 1%nat) "all-documents" [] None
               (Cache.new (Some (Manager.cacheTimeout cfg * 1000)%Z))).
  assert (G : Cache.get (clock 2%nat) "all-documents" c1 = (Some [], c1)).
  { rewrite get_eq. unfold c1. rewrite set_store, lookup_insert_eq.
    cbn [Cache.expiresAt Cache.data Cache.new Cache.defaultTTL].
    match goal with
    | |- context [Z.leb ?a ?b] =>
        replace (Z.leb a b) with true
          by (symmetry; apply Z.leb_le; exact Hlive)
    end.
    reflexivity. }
  unfold Manager.initialize, Manager.bind, Manager.this, Manager.update.
  mgr_simpl.
  rewrite (loadDocuments_hit _ _ _ _ [])
    by (mgr_simpl; fold c1; rewrite G; reflexivity).
  mgr_simpl. repeat split.
Qed.

(** The example of the specification: one adapter of three fails. *)
Lemma loadDocuments_partial_failure_witness :
  Manager.documents
    (fst (snd (Manager.loadDocuments Sample.ticking Sample.remoteDown
                 (Sample.constructed, Manager.world0))))
  = [Sample.vue; Sample.restful]
  /\ Manager.loadLog
       (snd (snd (Manager.loadDocuments Sample.ticking Sample.remoteDown
                    (Sample.constructed, Manager.world0))))
     = Manager.srcs Sample.constructed.
Proof.
  destruct (loadDocuments_partial_failure Sample.ticking Sample.remoteDown
              Sample.constructed Manager.world0) as (D & L & _).
  - reflexivity.
  - split; [exact D | exact L].
Defined.

Lemma refresh_before_initialize_witness :
  Manager.documents
    (fst (snd (Manager.initialize Sample.ticking Sample.remoteDown None
                 (snd (Manager.refresh Sample.ticking Sample.remoteDown
                         (Manager.new Sample.config3, Manager.world0))))))
  = []
  /\ Manager.loadLog
       (snd (snd (Manager.initialize Sample.ticking Sample.remoteDown None
                    (snd (Manager.refresh Sample.ticking Sample.remoteDown
                            (Manager.new Sample.config3, Manager.world0))))))
     = []
  /\ length (Manager.sources Sample.config3) = 3.
Proof.
  destruct (refresh_before_initialize Sample.ticking Sample.remoteDown None
              Sample.config3) as (_ & _ & D & L & _).
  - vm_compute. discriminate.
  - split; [exact D|]. split; [exact L|reflexivity].
Defined.

(** ** Lookup by id *)

Lemma find_app {A} (f : A -> bool) l1 l2 :
  List.find f (l1 ++ l2)
  = match List.find f l1 with
    | Some x => Some x
    | None => List.find f l2
    end.
Proof.
  induction l1 as [|x l1 IH]; simpl; [reflexivity|].
  destruct (f x); [reflexivity|exact IH].
Qed.

Lemma find_none_iff {A} (f : A -> bool) l :
  Forall (fun x => f x = false) l -> List.find f l = None.
Proof.
  induction 1 as [|x l Hx _ IH]; simpl; [reflexivity|].
  rewrite Hx. exact IH.
Qed.

(** C8, as the specification states it, fails: with the same id delivered
    by the local tree and then by the git repository, the lookup returns
    the document of the local tree, the earlier source. *)
Lemma last_write_wins_counterexample :
  Manager.documents Sample.collided = [Sample.earlier; Sample.later]
  /\ Manager.getStandardById Sample.collided "team-rules" = Some Sample.earlier
  /\ Manager.getStandardById Sample.collided "team-rules" <> Some Sample.later.
Proof.
  unfold Sample.collided. rewrite initialize_new. cbn [fst snd].
  split; [reflexivity|]. split; [reflexivity|].
  unfold Manager.getStandardById. cbn. discriminate.
Qed.

(** C8, amended. [getStandardById] returns the first document of the
    corpus that has the id: of two documents with one id, the one that
    comes earlier in the corpus, hence from the earlier source in declared
    order, or the earlier one of a single source. *)
Theorem getStandardById_first_wins (m : Manager.t) (i : string)
    (l1 l2 : list StandardDocument) (d : StandardDocument) :
  Manager.documents m = l1 ++ d :: l2 ->
  id d = i ->
  Forall (fun x => id x <> i) l1 ->
  Manager.getStandardById m i = Some d.
Proof.
  intros E Hd Hl1. unfold Manager.getStandardById. rewrite E, find_app.
  rewrite find_none_iff.
  - simpl. rewrite Hd, String.eqb_refl. reflexivity.
  - eapply List.Forall_impl; [|exact Hl1]. intros x Hx. simpl in Hx.
    apply String.eqb_neq, Hx.
Qed.

Lemma getStandardById_first_wins_witness :
  Manager.getStandardById (Sample.loaded [Sample.vue; Sample.earlier; Sample.later])
    "team-rules" = Some Sample.earlier.
Proof.
  apply (getStandardById_first_wins
           (Sample.loaded [Sample.vue; Sample.earlier; Sample.later])
           "team-rules" [Sample.vue] [Sample.later] Sample.earlier).
  - reflexivity.
  - reflexivity.
  - constructor; [|constructor]. vm_compute. discriminate.
Defined.

(** ** The search tool *)

Lemma searchStandards_trim m q :
  Manager.searchStandards m (JS.trim q) = Manager.searchStandards m q.
Proof.
  unfold Manager.searchStandards.
  rewrite !queryWords_terms, toLowerCase_trim, terms_trim. reflexivity.
Qed.

Lemma searchStandards_empty m : Manager.searchStandards m EmptyString = [].
Proof.
  unfold Manager.searchStandards. rewrite collect_matching.
  unfold SearchSpec.matching. cbn.
  induction (Manager.documents m) as [|d l IH]; [reflexivity|exact IH].
Qed.

Lemma map_rebuild (l : list SearchResult) :
  List.map (fun r =>
              {| sr_id := sr_id r; sr_title := sr_title r;
                 sr_description := sr_description r;
                 sr_category := sr_category r; relevance := relevance r |}) l
  = l.
Proof.
  induction l as [|[] l IH]; simpl; [reflexivity|]. rewrite IH. reflexivity.
Qed.

(** C9. For a query that matches some document, [resolveStandard] returns
    the first ten entries of [searchStandards], in its order, and reports
    as [totalCount] the number of all the entries. *)
Theorem resolveStandard_top_ten (m : Manager.t) (query : string) :
  Manager.searchStandards m query <> [] ->
  let found := Manager.searchStandards m query in
  let r := Tools.resolveStandard m query in
  Tools.results r = firstn 10 found
  /\ length (Tools.results r) <= 10
  /\ Tools.totalCount r = length found
  /\ Tools.message r = Tools.MsgFound (length found).
Proof.
  intros Hne. cbv zeta. unfold Tools.resolveStandard.
  rewrite searchStandards_trim.
  destruct (JS.truthy query) eqn:Tq.
  2:{ destruct query; [|discriminate]. now rewrite searchStandards_empty in Hne. }
  destruct (String.length (JS.trim query) =? 0)%nat eqn:Lq.
  { apply Nat.eqb_eq in Lq.
    rewrite <- searchStandards_trim in Hne.
    destruct (JS.trim query); [|discriminate].
    now rewrite searchStandards_empty in Hne. }
  cbn [negb orb].
  destruct (Manager.searchStandards m query) as [|x l] eqn:E; [congruence|].
  cbn [length Nat.eqb Tools.results Tools.totalCount Tools.message].
  unfold Tools.topResults. rewrite map_rebuild.
  repeat split. apply firstn_le_length.
Qed.

Lemma resolveStandard_top_ten_witness :
  Manager.searchStandards (Sample.loaded Sample.dozen) "guide" <> []
  /\ List.map sr_id
       (Tools.results (Tools.resolveStandard (Sample.loaded Sample.dozen) "guide"))
     = ["g12"; "g11"; "g01"; "g02"; "g03"; "g04"; "g05"; "g06"; "g07"; "g08"]
  /\ length
       (Tools.results (Tools.resolveStandard (Sample.loaded Sample.dozen) "guide"))
     = 10
  /\ Tools.totalCount (Tools.resolveStandard (Sample.loaded Sample.dozen) "guide")
     = 12
  /\ Tools.message (Tools.resolveStandard (Sample.loaded Sample.dozen) "guide")
     = Tools.MsgFound 12.
Proof.
  assert (H : Manager.searchStandards (Sample.loaded Sample.dozen) "guide" <> [])
    by (vm_compute; discriminate).
  split; [exact H|].
  destruct (resolveStandard_top_ten (Sample.loaded Sample.dozen) "guide" H)
    as (R & _ & C & M).
  rewrite R, C, M. vm_compute. repeat split.
Defined.

(** ** The normalizer *)

Section TrimFacts.
Import JS.



Lemma concat_assoc a b c : concat (concat a b) c = concat a (concat b c).
Proof. induction a; simpl; congruence. Qed.


Lemma headIsSpace_trimStart s : headIsSpace (trimStart s) = false.
Proof.
  induction s as [|c s IH]; simpl; [reflexivity|].
  destruct (isSpace c) eqn:Hc; [exact IH|]. simpl. exact Hc.
Qed.

Lemma headIsSpace_trimEnd s :
  headIsSpace s = false -> headIsSpace (trimEnd s) = false.
Proof.
  destruct s as [|c s]; [reflexivity|]. cbn [trimEnd].
  destruct (allSpace (String c s)); [reflexivity|]. intros H. exact H.
Qed.

Lemma trimEnd_empty s : trimEnd s = EmptyString -> allSpace s = true.
Proof.
  destruct s as [|c s]; [reflexivity|]. cbn [trimEnd].
  destruct (allSpace (String c s)); [reflexivity|discriminate].
Qed.

Lemma lastIsSpace_trimEnd s : lastIsSpace (trimEnd s) = false.
Proof.
  induction s as [|c s IH]; [reflexivity|]. cbn [trimEnd].
  destruct (allSpace (String c s)) eqn:A; [reflexivity|].
  destruct (trimEnd s) as [|c' t] eqn:E.
  - apply trimEnd_empty in E. simpl in A. rewrite E, andb_true_r in A.
    simpl. exact A.
  - exact IH.
Qed.

(** The result of [trim] neither starts nor ends with white space. *)
Lemma trim_edges s :
  headIsSpace (trim s) = false /\ lastIsSpace (trim s) = false.
Proof.
  unfold trim. split.
  - apply headIsSpace_trimEnd, headIsSpace_trimStart.
  - apply lastIsSpace_trimEnd.
Qed.

End TrimFacts.



(** C5. The path of the specification yields the id it gives, and a
    leading ["./"] and ["standards/"] go; but of the two Markdown
    extensions that the adapters accept, [generateId] strips [.md] only:
    the id of a [.markdown] file keeps its extension. *)
Theorem generateId_markdown_extension :
  Parser.generateId "frontend/vue/components.md" = "frontend-vue-components"
  /\ Parser.generateId "./standards/frontend/vue/components.md"
     = "frontend-vue-components"
  /\ Parser.generateId "frontend/vue/components.markdown"
     = "frontend-vue-components.markdown"
  /\ Remote.isMarkdownUrl "frontend/vue/components.markdown" = true.
Proof. repeat split. Qed.

(** ** The remote adapter *)

Section RemoteFacts.
Variable matter : string -> Parser.MatterResult.
Variable fetchOracle : nat -> Remote.Request -> option Remote.Response.
Variable urlPathname : string -> option string.

Lemma loadFromApi_requests url headers log :
  snd (Remote.loadFromApi matter fetchOracle url headers log)
  = log ++ [Remote.apiRequest url headers].
Proof.
  unfold Remote.loadFromApi, Remote.fetch.
  destruct (fetchOracle _ _) as [r|]; [|reflexivity].
  destruct (Remote.ok r); [|reflexivity]. cbn [negb].
  destruct (Remote.json r) as [d|]; [|reflexivity].
  destruct (Remote.transformStandards _ _ _ _); reflexivity.
Qed.

Lemma loadMarkdownFile_requests headers cfg log :
  snd (Remote.loadMarkdownFile matter fetchOracle urlPathname headers cfg log)
  = log ++ [Remote.markdownRequest (Manager.doc_url cfg) headers].
Proof. reflexivity. Qed.

Lemma loadDocs_requests headers l : forall acc log,
  snd (Remote.loadDocs matter fetchOracle urlPathname headers l acc log)
  = log ++ List.map (fun d => Remote.markdownRequest (Manager.doc_url d) headers) l.
Proof.
  induction l as [|d l IH]; intros acc log; cbn [Remote.loadDocs List.map].
  - rewrite app_nil_r. reflexivity.
  - destruct (Remote.loadMarkdownFile _ _ _ _ _ _) as [loaded log'] eqn:E.
    assert (L : log' = log ++ [Remote.markdownRequest (Manager.doc_url d) headers]).
    { rewrite <- (loadMarkdownFile_requests headers d log), E. reflexivity. }
    subst log'. destruct loaded; rewrite IH, <- app_assoc; reflexivity.
Qed.

(** The version with the [docs] list: the three modes, in order. *)
Lemma load_modes_requests (self : RemoteSourceModes.t) log :
  snd (RemoteSourceModes.load matter fetchOracle urlPathname self log)
  = log ++
    match RemoteSourceModes.docs self with
    | _ :: _ =>
        List.map (fun d => Remote.markdownRequest (Manager.doc_url d)
                             (RemoteSourceModes.headers self))
                 (RemoteSourceModes.docs self)
    | [] =>
        if Remote.isMarkdownUrl (RemoteSourceModes.url self)
        then [Remote.markdownRequest (RemoteSourceModes.url self)
                (RemoteSourceModes.headers self)]
        else [Remote.apiRequest (RemoteSourceModes.url self)
                (RemoteSourceModes.headers self)]
    end.
Proof.
  unfold RemoteSourceModes.load.
  destruct (RemoteSourceModes.docs self) as [|d l] eqn:D.
  - cbn [length Nat.ltb Nat.leb].
    destruct (Remote.isMarkdownUrl _).
    + match goal with
      | |- context [Remote.loadMarkdownFile ?a ?b ?c ?hd ?cfg ?lg] =>
          pose proof (loadMarkdownFile_requests hd cfg lg) as L;
          destruct (Remote.loadMarkdownFile a b c hd cfg lg) as [doc log']
      end.
      exact L.
    + apply loadFromApi_requests.
  - change (0 <? length (d :: l))%nat with true. cbv iota.
    apply loadDocs_requests.
Qed.





End RemoteFacts.


(** The other copy of the adapter, [RemoteSource.load] of
    [src/sources/remote.ts], whose constructor takes no [docs] list, has
    the third mode only: whatever the [docs] list and the extension of
    the url, its one request is the JSON API request. With a url that
    ends in [.md] and a server that delivers the Markdown file, it
    returns no document, where the version with the three modes requests
    the file as Markdown and returns its document. *)
Lemma remote_load_single_mode
    (matter : string -> Parser.MatterResult)
    (fetchOracle : nat -> Remote.Request -> option Remote.Response)
    (u : string) (h : option (gmap string string))
    (d : option (list Manager.RemoteDocConfig)) (log : list Remote.Request) :
  snd (RemoteSource.load matter fetchOracle (RemoteSource.new u h d) log)
  = log ++ [Remote.apiRequest u (default ∅ h)]
  /\ RemoteSource.load Sample.plain Sample.markdownServer
       (RemoteSource.new Sample.vue3Url None None) []
     = ([], [Remote.apiRequest Sample.vue3Url ∅])
  /\ List.map id
       (fst (RemoteSourceModes.load Sample.plain Sample.markdownServer
               Sample.pathnameOf
               (RemoteSourceModes.new Sample.vue3Url None None) []))
     = ["custom-vue3"]
  /\ snd (RemoteSourceModes.load Sample.plain Sample.markdownServer
            Sample.pathnameOf
            (RemoteSourceModes.new Sample.vue3Url None None) [])
     = [Remote.markdownRequest Sample.vue3Url ∅].
Proof.
  split; [apply loadFromApi_requests|].
  split; [reflexivity|]. split; [vm_compute; reflexivity|].
  rewrite load_modes_requests. reflexivity.
Qed.

(** ** The examples of the specification, evaluated *)

Example search_vue :
  List.map sr_id
    (Manager.searchStandards (Sample.loaded [Sample.vue; Sample.restful]) "vue")
  = ["frontend-vue-components"].
Proof. vm_compute. reflexivity. Qed.

Example search_nonexistent :
  Tools.resolveStandard (Sample.loaded [Sample.vue; Sample.restful]) "nonexistent"
  = {| Tools.message := Tools.MsgNotFound "nonexistent" ["frontend"; "backend"];
       Tools.results := []; Tools.totalCount := 0 |}.
Proof. vm_compute. reflexivity. Qed.

Example search_ties_keep_corpus_order :
  List.map (fun r => (sr_id r, relevance r))
    (Manager.searchStandards
       (Sample.loaded
          [ Sample.restful;
            Sample.doc "b" "Team rules" [] "custom" "b.md" "text";
            Sample.vue;
            Sample.doc "a" "Team rules" [] "custom" "a.md" "text" ])
       "Rules  VUE")
  = [("frontend-vue-components", 25); ("b", 10); ("a", 10)].
Proof. vm_compute. reflexivity. Qed.

Example split_query :
  JS.splitSpaces " a  b " = [""; "a"; "b"; ""]
  /\ Manager.queryWords " Vue  API " = ["vue"; "api"].
Proof. split; reflexivity. Qed.

Example title_of_heading :
  Parser.extractTitle "intro
# Hello  world  
text" = Some "Hello  world"
  /\ Parser.extractTitle "#foo" = None.
Proof. split; reflexivity. Qed.

Example path_info :
  Parser.extractPathInfo "backend/api/restful.md"
  = {| Parser.pi_category := "backend"; Parser.pi_subcategory := Some "api";
       Parser.pi_filename := "restful" |}.
Proof. reflexivity. Qed.

(** * Further properties of the code *)

(** ** The cache: sweeping, deleting, counting *)

Section CacheMore.
Context {T : Type}.
Implicit Types (c : Cache.t T) (key : string) (now : Z).

Lemma cleanup_lookup now key c :
  Cache.store (Cache.cleanup now c) !! key
  = match Cache.store c !! key with
    | Some e => if (now <=? Cache.expiresAt e)%Z then Some e else None
    | None => None
    end.
Proof.
  unfold Cache.cleanup. cbn [Cache.store Cache.withStore].
  destruct (Cache.store c !! key) as [e|] eqn:E.
  - destruct (Z.leb_spec now (Cache.expiresAt e)).
    + apply map_lookup_filter_Some. split; [exact E|]. simpl. lia.
    + apply map_lookup_filter_None. right. intros x Hx. simpl.
      rewrite E in Hx. injection Hx as <-. lia.
  - apply map_lookup_filter_None. left. exact E.
Qed.

Lemma cache_eq c1 c2 :
  Cache.store c1 = Cache.store c2 -> Cache.defaultTTL c1 = Cache.defaultTTL c2 ->
  c1 = c2.
Proof. destruct c1, c2. simpl. intros -> ->. reflexivity. Qed.

End CacheMore.

(** X1. [cleanup] removes exactly the entries whose expiry is before
    [now] and keeps the others as they are; a second [cleanup] at the same
    instant changes nothing; and a [get] after it returns what a [get]
    without it returns, and has nothing left to delete. *)
Theorem cache_cleanup_sweeps {T : Type} (c : Cache.t T) (now : Z) (key : string) :
  Cache.store (Cache.cleanup now c) !! key
  = match Cache.store c !! key with
    | Some e => if (now <=? Cache.expiresAt e)%Z then Some e else None
    | None => None
    end
  /\ Cache.cleanup now (Cache.cleanup now c) = Cache.cleanup now c
  /\ Cache.get now key (Cache.cleanup now c)
     = (fst (Cache.get now key c), Cache.cleanup now c)
  /\ Cache.size (Cache.cleanup now c) <= Cache.size c.
Proof.
  split; [apply cleanup_lookup|]. split; [|split].
  - apply cache_eq; [|reflexivity]. apply map_eq. intros k.
    rewrite !cleanup_lookup.
    destruct (Cache.store c !! k) as [e|]; [|reflexivity].
    destruct (now <=? Cache.expiresAt e)%Z eqn:E; [rewrite E|]; reflexivity.
  - rewrite !get_eq, cleanup_lookup.
    destruct (Cache.store c !! key) as [e|]; [|reflexivity].
    destruct (now <=? Cache.expiresAt e)%Z eqn:E; [rewrite E|]; reflexivity.
  - unfold Cache.size, Cache.cleanup. cbn [Cache.store Cache.withStore].
    apply map_subseteq_size, map_filter_subseteq.
Qed.

(** X2. Expiry is final: when a [get] finds nothing at [now], a [get] at
    any later instant finds nothing either, in the cache as it was and in
    the cache as that first [get] left it. *)
Theorem cache_expiry_is_final {T : Type} (c : Cache.t T) (key : string)
    (now now' : Z) :
  (now <= now')%Z ->
  fst (Cache.get now key c) = None ->
  fst (Cache.get now' key c) = None
  /\ fst (Cache.get now' key (snd (Cache.get now key c))) = None.
Proof.
  intros Hle H. rewrite get_eq in H.
  destruct (Cache.store c !! key) as [e|] eqn:E.
  - destruct (Z.leb_spec now (Cache.expiresAt e)) as [|Hexp]; [discriminate|].
    split.
    + rewrite get_eq, E.
      destruct (Z.leb_spec now' (Cache.expiresAt e)); [lia|reflexivity].
    + rewrite (get_eq now key c), E.
      destruct (Z.leb_spec now (Cache.expiresAt e)); [lia|].
      cbn [snd]. rewrite get_eq. cbn [Cache.store Cache.withStore].
      rewrite lookup_delete_eq. reflexivity.
  - split; [rewrite get_eq, E; reflexivity|].
    rewrite (get_eq now key c), E. cbn [snd]. rewrite get_eq, E. reflexivity.
Qed.

Lemma cache_expiry_is_final_witness :
  fst (Cache.get 1100 "key1"
         (Cache.set 0 "key1" "value1" None (Cache.new (Some 1000%Z)))) = None
  /\ fst (Cache.get 1100 "key1"
            (snd (Cache.get 1001 "key1"
                    (Cache.set 0 "key1" "value1" None
                       (Cache.new (Some 1000%Z)))))) = None.
Proof.
  apply (cache_expiry_is_final
           (Cache.set 0 "key1" "value1" None (Cache.new (Some 1000%Z)))
           "key1" 1001 1100).
  - lia.
  - vm_compute. reflexivity.
Defined.

(** X3. [delete] does not look at the expiry: after a [set] it returns
    [true] at any time, leaves the store as it was without the key, makes
    every later [get] of the key find nothing, and a second [delete]
    returns [false]. *)
Theorem cache_delete_after_set {T : Type} (c : Cache.t T) (key : string)
    (v : T) (ttl : option Z) (now now' : Z) :
  let c1 := Cache.set now key v ttl c in
  let c2 := snd (Cache.delete key c1) in
  fst (Cache.delete key c1) = true
  /\ Cache.store c2 = delete key (Cache.store c)
  /\ Cache.get now' key c2 = (None, c2)
  /\ fst (Cache.delete key c2) = false
  /\ Cache.size c2 = Cache.size (snd (Cache.delete key c)).
Proof.
  cbv zeta. unfold Cache.delete. cbn [fst snd].
  rewrite set_store, lookup_insert_eq.
  cbn [Cache.store Cache.withStore Cache.size].
  rewrite delete_insert_eq, lookup_delete_eq.
  split; [apply bool_decide_eq_true; eauto|].
  split; [reflexivity|]. split; [|split; [|reflexivity]].
  - rewrite get_eq. cbn [Cache.store Cache.withStore].
    rewrite lookup_delete_eq. reflexivity.
  - apply bool_decide_eq_false. intros [x Hx]. discriminate.
Qed.

(** X4. [size] counts the entries, expired or not: a [set] adds one when
    the key is new and none when it overwrites; a [get] that meets an
    expired entry takes one away; [clear] leaves none. *)
Theorem cache_size_accounting {T : Type} (c : Cache.t T) (key : string)
    (v : T) (ttl : option Z) (now : Z) :
  Cache.size (Cache.set now key v ttl c)
  = match Cache.store c !! key with
    | Some _ => Cache.size c
    | None => S (Cache.size c)
    end
  /\ Cache.size (snd (Cache.get now key c))
     = match Cache.store c !! key with
       | Some e =>
           if (now <=? Cache.expiresAt e)%Z then Cache.size c
           else pred (Cache.size c)
       | None => Cache.size c
       end
  /\ Cache.size (Cache.clear c) = 0.
Proof.
  unfold Cache.size. rewrite set_store, map_size_insert, get_eq.
  split; [destruct (Cache.store c !! key); reflexivity|]. split.
  - destruct (Cache.store c !! key) as [e|] eqn:E; [|reflexivity].
    destruct (now <=? Cache.expiresAt e)%Z; [reflexivity|].
    cbn [snd Cache.store Cache.withStore]. rewrite map_size_delete, E.
    reflexivity.
  - apply map_size_empty.
Qed.

(** ** The aggregator: reloading and the read-only queries *)

Section ManagerMore.
Import Manager ManagerSpec.
Variable clock : nat -> Z.
Variable loadOracle : nat -> DocumentSource -> Outcome (list StandardDocument).

Lemma get_cleared now key (c : Cache.t (list StandardDocument)) :
  Cache.get now key (Cache.clear c) = (None, Cache.clear c).
Proof.
  rewrite get_eq. cbn [Cache.clear Cache.store Cache.withStore].
  rewrite lookup_empty. reflexivity.
Qed.

Lemma refresh_run m w :
  refresh clock loadOracle (m, w)
  = let docs := corpus loadOracle (length (loadLog w)) (srcs m) in
    (tt, ({| config := config m;
             cache := Cache.set (clock (S (cacheOps w))) "all-documents" docs
                        None (Cache.clear (cache m));
             documents := docs; srcs := srcs m;
             initialized := initialized m |},
          {| cacheOps := S (S (cacheOps w)); loadLog := loadLog w ++ srcs m |})).
Proof.
  unfold refresh, bind, update. mgr_simpl.
  rewrite loadDocuments_miss; mgr_simpl; rewrite get_cleared; reflexivity.
Qed.

Lemma setInsertionOrder_spec l : forall seen,
  NoDup (setInsertionOrder seen l)
  /\ forall x, In x (setInsertionOrder seen l) <-> In x l /\ ~ In x seen.
Proof.
  induction l as [|y l IH]; intros seen; cbn [setInsertionOrder].
  - split; [constructor|]. intros x. simpl. tauto.
  - destruct (existsb (String.eqb y) seen) eqn:E.
    + apply existsb_exists in E as (z & Hz & Ez). apply String.eqb_eq in Ez. subst z.
      destruct (IH seen) as [N M]. split; [exact N|].
      intros x. rewrite M. simpl. split; [tauto|].
      intros [[->|H] Hn]; [contradiction|tauto].
    + assert (Hy : ~ In y seen).
      { intros Hin. apply not_true_iff_false in E. apply E.
        apply existsb_exists. exists y. split; [exact Hin|apply String.eqb_refl]. }
      destruct (IH (y :: seen)) as [N M]. split.
      * apply NoDup_cons. split; [|exact N].
        rewrite list_elem_of_In, M. simpl. tauto.
      * intros x. simpl. rewrite M. simpl.
        destruct (String.eqb_spec y x) as [->|Hne]; [tauto|]. tauto.
Qed.

End ManagerMore.

(** X5. [refresh] always reloads, whatever the cache held and whether the
    manager is initialized or not: it calls the [load()] of each adapter
    once, in order, replaces the corpus by what they deliver, leaves the
    list of adapters and the flag alone, and the cache then holds that
    corpus under ["all-documents"] and nothing else. *)
Theorem refresh_always_reloads
    (clock : nat -> Z)
    (loadOracle : nat -> Manager.DocumentSource -> Outcome (list StandardDocument))
    (m : Manager.t) (w : Manager.World) :
  let s' := snd (Manager.refresh clock loadOracle (m, w)) in
  let docs := ManagerSpec.corpus loadOracle (length (Manager.loadLog w))
                (Manager.srcs m) in
  Manager.documents (fst s') = docs
  /\ Manager.loadLog (snd s') = Manager.loadLog w ++ Manager.srcs m
  /\ Manager.srcs (fst s') = Manager.srcs m
  /\ Manager.initialized (fst s') = Manager.initialized m
  /\ Cache.data <$> Cache.store (Manager.cache (fst s')) !! "all-documents"
     = Some docs
  /\ Cache.size (Manager.cache (fst s')) = 1.
Proof.
  cbv zeta. rewrite refresh_run. mgr_simpl.
  split; [reflexivity|]. split; [reflexivity|]. split; [reflexivity|].
  split; [reflexivity|]. split.
  - rewrite set_store, lookup_insert_eq. reflexivity.
  - unfold Cache.size. rewrite set_store, map_size_insert.
    cbn [Cache.clear Cache.store Cache.withStore].
    rewrite lookup_empty, map_size_empty. reflexivity.
Qed.

(** X6. While the entry under ["all-documents"] has not expired,
    [loadDocuments] calls no [load()]: it adopts the cached list as the
    corpus and leaves the cache, the adapters and the flag as they are. *)
Theorem loadDocuments_served_from_cache
    (clock : nat -> Z)
    (loadOracle : nat -> Manager.DocumentSource -> Outcome (list StandardDocument))
    (m : Manager.t) (w : Manager.World) (e : Cache.CacheEntry (list StandardDocument)) :
  Cache.store (Manager.cache m) !! "all-documents" = Some e ->
  (clock (Manager.cacheOps w) <= Cache.expiresAt e)%Z ->
  let s' := snd (Manager.loadDocuments clock loadOracle (m, w)) in
  Manager.documents (fst s') = Cache.data e
  /\ Manager.loadLog (snd s') = Manager.loadLog w
  /\ Manager.cache (fst s') = Manager.cache m
  /\ Manager.srcs (fst s') = Manager.srcs m
  /\ Manager.initialized (fst s') = Manager.initialized m.
Proof.
  intros E Hlive. cbv zeta.
  assert (G : Cache.get (clock (Manager.cacheOps w)) "all-documents"
                (Manager.cache m) = (Some (Cache.data e), Manager.cache m)).
  { rewrite get_eq, E.
    destruct (Z.leb_spec (clock (Manager.cacheOps w)) (Cache.expiresAt e));
      [reflexivity|lia]. }
  rewrite (loadDocuments_hit _ _ _ _ (Cache.data e)) by (rewrite G; reflexivity).
  rewrite G. mgr_simpl. repeat split.
Qed.

Lemma loadDocuments_served_from_cache_witness :
  Manager.documents
    (fst (snd (Manager.loadDocuments Sample.ticking Sample.remoteDown
                 (fst (snd (Manager.initialize Sample.ticking Sample.remoteDown
                              None (Manager.new Sample.config3, Manager.world0))),
                  Manager.world0))))
  = [Sample.vue; Sample.restful]
  /\ Manager.loadLog
       (snd (snd (Manager.loadDocuments Sample.ticking Sample.remoteDown
                    (fst (snd (Manager.initialize Sample.ticking
                                 Sample.remoteDown None
                                 (Manager.new Sample.config3, Manager.world0))),
                     Manager.world0))))
     = [].
Proof.
  destruct (loadDocuments_served_from_cache Sample.ticking Sample.remoteDown
              (fst (snd (Manager.initialize Sample.ticking Sample.remoteDown
                           None (Manager.new Sample.config3, Manager.world0))))
              Manager.world0
              {| Cache.data := [Sample.vue; Sample.restful];
                 Cache.timestamp := 1; Cache.expiresAt := 3600001 |})
    as (D & L & _).
  - rewrite initialize_new. cbn [fst snd Manager.cache].
    rewrite set_store, lookup_insert_eq. reflexivity.
  - vm_compute. discriminate.
  - split; [exact D|exact L].
Defined.

(** X7. [getCategories] lists each category of the corpus once, and
    nothing else. *)
Theorem getCategories_distinct_and_complete (m : Manager.t) (c : string) :
  NoDup (Manager.getCategories m)
  /\ (In c (Manager.getCategories m)
      <-> exists d, In d (Manager.documents m) /\ category d = c).
Proof.
  unfold Manager.getCategories.
  destruct (setInsertionOrder_spec (List.map category (Manager.documents m)) [])
    as [N M].
  split; [exact N|]. rewrite M, in_map_iff. simpl.
  split.
  - intros [(d & E & H) _]. eauto.
  - intros (d & H & E). split; [eauto|tauto].
Qed.

(** X8. [getStandardsByCategory] is [getAllStandards] restricted to the
    entries whose category is exactly the one asked for: it keeps their
    order, and a document whose category differs, be it only by case or
    by being the subcategory, is left out. *)
Theorem getStandardsByCategory_exact (m : Manager.t) (c : string) :
  Manager.getStandardsByCategory m c
  = List.filter (fun s => String.eqb (Manager.md_category s) c)
                (Manager.getAllStandards m)
  /\ Forall (fun s => Manager.md_category s = c)
            (Manager.getStandardsByCategory m c)
  /\ (forall d, In d (Manager.documents m) ->
        (In (Manager.toMetadata d) (Manager.getStandardsByCategory m c)
         <-> category d = c)).
Proof.
  unfold Manager.getStandardsByCategory, Manager.getAllStandards.
  assert (F : forall l,
    List.map Manager.toMetadata
      (List.filter (fun doc => String.eqb (category doc) c) l)
    = List.filter (fun s => String.eqb (Manager.md_category s) c)
                  (List.map Manager.toMetadata l)).
  { induction l as [|d l IH]; [reflexivity|]. cbn [List.map List.filter].
    cbn [Manager.toMetadata Manager.md_category].
    destruct (String.eqb (category d) c); cbn [List.map]; rewrite IH; reflexivity. }
  split; [apply F|]. split.
  - rewrite F. apply Forall_forall. intros s Hs.
    apply list_elem_of_In, filter_In in Hs as [_ Hs]. apply String.eqb_eq, Hs.
  - intros d Hd. rewrite F, filter_In. cbn [Manager.toMetadata Manager.md_category].
    rewrite String.eqb_eq. split; [tauto|].
    intros E. split; [apply in_map, Hd|exact E].
Qed.

(** X9. [getStandardById] reports a document absent exactly when no
    document of the corpus has the id, and a document it returns is in the
    corpus and has the id. *)
Theorem getStandardById_absent_iff (m : Manager.t) (i : string) :
  (Manager.getStandardById m i = None
   <-> Forall (fun d => id d <> i) (Manager.documents m))
  /\ (forall d, Manager.getStandardById m i = Some d ->
        In d (Manager.documents m) /\ id d = i).
Proof.
  unfold Manager.getStandardById. split.
  - split.
    + intros H. apply Forall_forall. intros d Hd E.
      apply list_elem_of_In in Hd.
      pose proof (find_none _ _ H d Hd) as F. simpl in F.
      apply String.eqb_neq in F. contradiction.
    + intros H. apply find_none_iff.
      eapply List.Forall_impl; [|exact H]. intros d Hd. simpl in Hd.
      apply String.eqb_neq, Hd.
  - intros d H. apply find_some in H as [Hin E]. apply String.eqb_eq in E. auto.
Qed.

(** ** Search: what the results are made of *)

Section SearchMore.
Import JS SearchSpec.

Lemma lowerChar_idempotent c : lowerChar (lowerChar c) = lowerChar c.
Proof. destruct c as [[] [] [] [] [] [] [] []]; reflexivity. Qed.

Lemma toLowerCase_idempotent s : toLowerCase (toLowerCase s) = toLowerCase s.
Proof.
  induction s as [|c s IH]; [reflexivity|]. cbn [toLowerCase mapChars].
  rewrite lowerChar_idempotent. f_equal. exact IH.
Qed.

Lemma list_sum_perm l1 l2 : Permutation l1 l2 -> list_sum l1 = list_sum l2.
Proof. induction 1; simpl; lia. Qed.

Lemma termScore_bound doc t : termScore doc t <= 19 + 7 * length (tags doc).
Proof.
  unfold termScore, weight.
  pose proof (filter_length_le
                (fun tag => includes (toLowerCase tag) t) (tags doc)).
  repeat match goal with |- context [if ?b then _ else _] => destruct b end; lia.
Qed.

Lemma relevanceOf_bound ws doc :
  relevanceOf ws doc <= length ws * (19 + 7 * length (tags doc)).
Proof.
  unfold relevanceOf. induction ws as [|t ws IH]; simpl; [lia|].
  pose proof (termScore_bound doc t). lia.
Qed.

Lemma terms_allSpace s : allSpace s = true -> terms s = [].
Proof. intros H. unfold terms. rewrite (termsFrom_allSpace s _ H). reflexivity. Qed.

Lemma matching_no_terms docs : matching [] docs = [].
Proof. unfold matching. induction docs as [|d l IH]; [reflexivity|exact IH]. Qed.

Lemma collect_ext ws1 ws2 docs :
  (forall d, Manager.score ws1 d = Manager.score ws2 d) ->
  Manager.collect ws1 docs = Manager.collect ws2 docs.
Proof.
  intros H. unfold Manager.collect.
  induction docs as [|d l IH]; [reflexivity|]. cbn [List.filter].
  rewrite (H d). destruct (0 <? Manager.score ws2 d)%nat; [|exact IH].
  cbn [List.map]. rewrite IH. unfold Manager.toResult. rewrite (H d). reflexivity.
Qed.

Lemma allSpace_trimStart s : allSpace (trimStart s) = allSpace s.
Proof.
  induction s as [|c s IH]; [reflexivity|]. simpl.
  destruct (isSpace c) eqn:Hc; [exact IH|]. simpl. rewrite Hc. reflexivity.
Qed.

Lemma trimEnd_allSpace s : allSpace s = true -> trimEnd s = EmptyString.
Proof. destruct s as [|c s]; [reflexivity|]. cbn [trimEnd]. intros ->. reflexivity. Qed.

Lemma trim_length_zero s : (String.length (trim s) =? 0)%nat = allSpace s.
Proof.
  unfold trim. rewrite <- (allSpace_trimStart s).
  destruct (allSpace (trimStart s)) eqn:A.
  - rewrite (trimEnd_allSpace _ A). reflexivity.
  - destruct (trimEnd (trimStart s)) eqn:E; [|reflexivity].
    apply trimEnd_empty in E. congruence.
Qed.

Lemma blank_test s :
  negb (truthy s) || (String.length (trim s) =? 0)%nat = allSpace s.
Proof.
  rewrite trim_length_zero. destruct s as [|c s]; [reflexivity|]. reflexivity.
Qed.

Lemma searchStandards_blank m q :
  allSpace q = true -> Manager.searchStandards m q = [].
Proof.
  intros A. unfold Manager.searchStandards. rewrite collect_matching.
  rewrite terms_allSpace by (rewrite allSpace_lower; exact A).
  rewrite matching_no_terms. reflexivity.
Qed.

End SearchMore.

(** X10. Every entry that [searchStandards] returns is the entry of a
    document of the corpus with its relevance, which is at least 1, and
    there are no more entries than documents. *)
Theorem searchStandards_results_sound (m : Manager.t) (query : string) :
  let ts := SearchSpec.terms (JS.toLowerCase query) in
  Forall (fun r =>
            1 <= relevance r
            /\ exists d, In d (Manager.documents m)
                         /\ r = SearchSpec.entry ts d)
         (Manager.searchStandards m query)
  /\ length (Manager.searchStandards m query) <= length (Manager.documents m).
Proof.
  cbv zeta. unfold Manager.searchStandards. rewrite collect_matching. split.
  - apply Forall_forall. intros r Hr. apply list_elem_of_In in Hr.
    apply (Permutation_in _ (sortByRelevance_perm _)) in Hr.
    unfold SearchSpec.matching in Hr. apply in_map_iff in Hr as (d & <- & Hd).
    apply filter_In in Hd as [Hin Hpos]. split; [|eauto].
    cbn [relevance SearchSpec.entry].
    destruct (SearchSpec.relevanceOf _ d); [discriminate|lia].
  - rewrite (Permutation_length (sortByRelevance_perm _)).
    unfold SearchSpec.matching. rewrite length_map. apply filter_length_le.
Qed.

(** X11. The score of a document is bounded by the query and its tags: at
    most 19 plus 7 for each tag, for each term of the query. *)
Theorem score_bounded (query : string) (doc : StandardDocument) :
  Manager.score (Manager.queryWords query) doc
  <= length (Manager.queryWords query) * (19 + 7 * length (tags doc)).
Proof.
  rewrite queryWords_terms, score_relevanceOf by apply terms_truthy.
  apply relevanceOf_bound.
Qed.

(** X12. The ranking does not depend on the order of the terms: two
    queries with the same terms, in any order, give the same result. *)
Theorem searchStandards_term_order (m : Manager.t) (q1 q2 : string) :
  Permutation (Manager.queryWords q1) (Manager.queryWords q2) ->
  Manager.searchStandards m q1 = Manager.searchStandards m q2.
Proof.
  intros P. unfold Manager.searchStandards. f_equal. apply collect_ext.
  intros d. revert P. rewrite !queryWords_terms. intros P.
  rewrite !score_relevanceOf by apply terms_truthy.
  unfold SearchSpec.relevanceOf. apply list_sum_perm, Permutation_map, P.
Qed.

Lemma searchStandards_term_order_witness :
  Manager.searchStandards (Sample.loaded [Sample.vue; Sample.restful]) "vue api"
  = Manager.searchStandards (Sample.loaded [Sample.vue; Sample.restful])
      "  API  Vue ".
Proof.
  apply searchStandards_term_order.
  change (Permutation ["vue"; "api"] ["api"; "vue"]). apply perm_swap.
Defined.

(** X13. The search is blind to the case of the query and to a query of
    white space: lower-casing the query changes nothing, and a query
    without a term matches nothing. *)
Theorem searchStandards_query_case (m : Manager.t) (query : string) :
  Manager.searchStandards m (JS.toLowerCase query)
  = Manager.searchStandards m query
  /\ (if JS.allSpace query then Manager.searchStandards m query = [] else True).
Proof.
  split.
  - unfold Manager.searchStandards, Manager.queryWords.
    rewrite toLowerCase_idempotent. reflexivity.
  - destruct (JS.allSpace query) eqn:A; [|exact I].
    apply searchStandards_blank, A.
Qed.

(** X14. For every query, matching or not, blank or not,
    [resolveStandard] returns the first ten entries of [searchStandards]
    and their full number; the message asks for a query exactly when the
    query is empty or white space. *)
Theorem resolveStandard_every_query (m : Manager.t) (query : string) :
  let r := Tools.resolveStandard m query in
  Tools.results r = firstn 10 (Manager.searchStandards m query)
  /\ Tools.totalCount r = length (Manager.searchStandards m query)
  /\ length (Tools.results r) <= Tools.totalCount r
  /\ (Tools.message r = Tools.MsgNoQuery <-> JS.allSpace query = true).
Proof.
  cbv zeta.
  unfold Tools.resolveStandard. rewrite blank_test, searchStandards_trim.
  destruct (JS.allSpace query) eqn:E.
  - rewrite (searchStandards_blank m query E). cbn.
    split; [reflexivity|]. split; [reflexivity|]. split; [lia|].
    split; reflexivity.
  - destruct (Manager.searchStandards m query) as [|x l] eqn:Hs.
    + cbn. split; [reflexivity|]. split; [reflexivity|]. split; [lia|].
      split; discriminate.
    + cbn [length Nat.eqb Tools.results Tools.totalCount Tools.message].
      unfold Tools.topResults. rewrite map_rebuild.
      split; [reflexivity|]. split; [reflexivity|].
      split; [rewrite length_firstn; cbn [length]; lia|]. split; discriminate.
Qed.

(** ** The normalizer: what its results look like *)

Section ParserMore.
Import JS Parser.

Lemma existsChar_drop f n : forall s,
  existsChar f s = false -> existsChar f (drop n s) = false.
Proof.
  induction n as [|n IH]; intros s H; [exact H|].
  destruct s as [|c s]; [reflexivity|]. simpl in *.
  apply orb_false_iff in H as [_ H]. apply IH, H.
Qed.

Lemma existsChar_take f n : forall s,
  existsChar f s = false -> existsChar f (take n s) = false.
Proof.
  induction n as [|n IH]; intros s H; [reflexivity|].
  destruct s as [|c s]; [reflexivity|]. simpl in *.
  apply orb_false_iff in H as [Hc H]. rewrite Hc. apply IH, H.
Qed.

Lemma existsChar_trimStart f s :
  existsChar f s = false -> existsChar f (trimStart s) = false.
Proof.
  induction s as [|c s IH]; intros H; [reflexivity|]. simpl.
  destruct (isSpace c); [|exact H].
  simpl in H. apply orb_false_iff in H as [_ H]. apply IH, H.
Qed.

Lemma existsChar_trimEnd f s :
  existsChar f s = false -> existsChar f (trimEnd s) = false.
Proof.
  induction s as [|c s IH]; intros H; [reflexivity|]. cbn [trimEnd].
  destruct (allSpace (String c s)); [reflexivity|].
  simpl in *. apply orb_false_iff in H as [Hc H]. rewrite Hc. apply IH, H.
Qed.

Lemma existsChar_trim f s :
  existsChar f s = false -> existsChar f (trim s) = false.
Proof. intros H. apply existsChar_trimEnd, existsChar_trimStart, H. Qed.

Lemma existsChar_concat f a b :
  existsChar f (concat a b) = existsChar f a || existsChar f b.
Proof.
  induction a as [|c a IH]; [reflexivity|]. simpl. rewrite IH. apply orb_assoc.
Qed.

Lemma existsChar_mapChars f g s :
  (forall c, f (g c) = f c) -> existsChar f (mapChars g s) = existsChar f s.
Proof.
  intros H. induction s as [|c s IH]; [reflexivity|]. simpl. rewrite H, IH.
  reflexivity.
Qed.

Lemma existsChar_replaced x y s :
  x <> y ->
  existsChar (fun c => Ascii.eqb c x) (replaceChar x y s) = false.
Proof.
  intros Hxy. unfold replaceChar.
  induction s as [|c s IH]; [reflexivity|]. simpl. rewrite IH, orb_false_r.
  destruct (Ascii.eqb_spec c x) as [->|Hc].
  - apply Ascii.eqb_neq. congruence.
  - apply Ascii.eqb_neq, Hc.
Qed.

Lemma splitChar_pieces x s :
  Forall (fun p => existsChar (fun c => Ascii.eqb c x) p = false) (splitChar x s).
Proof.
  induction s as [|c s IH]; simpl; [repeat constructor|].
  destruct (Ascii.eqb c x) eqn:E; [constructor; [reflexivity|exact IH]|].
  destruct (splitChar x s) as [|w ws]; [repeat constructor; simpl; rewrite E; reflexivity|].
  inversion IH as [|? ? Hw Hws]; subst. constructor; [|exact Hws].
  simpl. rewrite E, Hw. reflexivity.
Qed.

Lemma length_take_le n : forall s, String.length (take n s) <= n.
Proof.
  induction n as [|n IH]; intros s; [simpl; lia|].
  destruct s as [|c s]; simpl; [lia|]. specialize (IH s). lia.
Qed.

Lemma length_concat a b :
  String.length (concat a b) = String.length a + String.length b.
Proof. induction a as [|c a IH]; simpl; [reflexivity|]. rewrite IH. reflexivity. Qed.

Lemma orDefault_truthy a b : truthy b = true -> truthy (orDefault a b) = true.
Proof.
  intros H. unfold orDefault. destruct a as [s|]; [|exact H].
  destruct (truthy s) eqn:E; [exact E|exact H].
Qed.

Lemma truncated_head n t x :
  truthy t = true ->
  truthy (concat (take (S n) t) x) = true
  /\ headIsSpace (concat (take (S n) t) x) = headIsSpace t.
Proof. destruct t as [|c t]; [discriminate|]. intros _. split; reflexivity. Qed.

Lemma descriptionLoop_result headless lines : forall foundTitle d,
  Forall (fun p => existsChar (fun c => Ascii.eqb c "010"%char) p = false) lines ->
  descriptionLoop headless foundTitle lines = Some d ->
  truthy d = true /\ String.length d <= 203 /\ headIsSpace d = false
  /\ existsChar (fun c => Ascii.eqb c "010"%char) d = false.
Proof.
  induction lines as [|line rest IH]; intros foundTitle d Hl H; [discriminate|].
  inversion Hl as [|? ? Hline Hrest]; subst.
  change (descriptionLoop headless foundTitle (line :: rest)) with
    (if negb (truthy (trim line)) then descriptionLoop headless foundTitle rest
     else if startsWith (trim line) "#" then descriptionLoop headless true rest
     else if startsWith (trim line) "```" then
       descriptionLoop headless foundTitle rest
     else if startsWith (trim line) "-" || startsWith (trim line) "*" then
       descriptionLoop headless foundTitle rest
     else if foundTitle || headless then
       if (200 <? String.length (trim line))%nat
       then Some (concat (take 200 (trim line)) "...")
       else Some (trim line)
     else descriptionLoop headless foundTitle rest) in H.
  destruct (truthy (trim line)) eqn:T; cbn [negb] in H; [|eauto].
  destruct (startsWith (trim line) "#"); [eauto|].
  destruct (startsWith (trim line) "```"); [eauto|].
  destruct (startsWith (trim line) "-" || startsWith (trim line) "*"); [eauto|].
  destruct (foundTitle || headless); [|eauto].
  pose proof (proj1 (trim_edges line)) as Hhead.
  pose proof (existsChar_trim _ _ Hline) as Hnl.
  destruct (200 <? String.length (trim line))%nat eqn:L;
    match type of H with Some ?x = Some _ => replace d with x by congruence end;
    clear H.
  - destruct (truncated_head 199 (trim line) "..." T) as [Ht Hh].
    split; [exact Ht|]. split; [|split].
    + rewrite length_concat. pose proof (length_take_le 200 (trim line)).
      change (String.length "...") with 3. lia.
    + rewrite Hh. exact Hhead.
    + rewrite existsChar_concat, (existsChar_take _ 200 _ Hnl). reflexivity.
  - apply Nat.ltb_ge in L. repeat split; try assumption. lia.
Qed.

Lemma takeWhile_not f s :
  existsChar f (takeWhile (fun c => negb (f c)) s) = false.
Proof.
  induction s as [|c s IH]; [reflexivity|]. simpl.
  destruct (f c) eqn:X; simpl; [reflexivity|]. rewrite X. exact IH.
Qed.

Lemma titleAt_no_terminator rest g :
  titleAt rest = Some g -> existsChar isLineTerminator g = false.
Proof.
  unfold titleAt.
  destruct (takeWhile isSpace rest) as [|r run']; [discriminate|].
  destruct (dropWhile isSpace rest) as [|a after] eqn:E.
  - destruct (dropWhile isLineTerminator (String.rev run')) as [|c back] eqn:B;
      [discriminate|].
    intros [= <-]. simpl. rewrite orb_false_r.
    clear -B. induction (String.rev run') as [|x s IH]; [discriminate|].
    simpl in B. destruct (isLineTerminator x) eqn:X; [apply IH, B|].
    injection B as -> _. exact X.
  - intros [= <-]. apply (takeWhile_not isLineTerminator (String a after)).
Qed.

Lemma matchTitle_no_terminator s : forall b g,
  matchTitle b s = Some g -> existsChar isLineTerminator g = false.
Proof.
  induction s as [|c s IH]; intros b g H; [discriminate|]. cbn [matchTitle] in H.
  destruct (b && Ascii.eqb c "#"%char); [|eauto].
  destruct (titleAt s) as [g'|] eqn:E; [|eauto].
  injection H as <-. eapply titleAt_no_terminator, E.
Qed.

Lemma lower_keeps_separator x c :
  x = "/"%char \/ x = "\"%char ->
  Ascii.eqb (lowerChar c) x = Ascii.eqb c x.
Proof.
  intros [->| ->]; destruct c as [[] [] [] [] [] [] [] []]; reflexivity.
Qed.

End ParserMore.

(** X15. [isValidMarkdown] accepts a text exactly when it holds a
    character that is not white space. *)
Theorem isValidMarkdown_iff_not_blank (text : string) :
  Parser.isValidMarkdown text = negb (JS.allSpace text)
  /\ Parser.isValidMarkdown (JS.trim text) = Parser.isValidMarkdown text.
Proof.
  assert (V : forall s, Parser.isValidMarkdown s = negb (JS.allSpace s)).
  { intros s. unfold Parser.isValidMarkdown. rewrite trim_length_zero.
    destruct s as [|c s]; [reflexivity|]. reflexivity. }
  split; [apply V|]. rewrite !V. f_equal.
  rewrite <- !trim_length_zero.
  assert (I : JS.trim (JS.trim text) = JS.trim text).
  { destruct (trim_edges text) as [Hh Hl]. unfold JS.trim at 1.
    assert (S : JS.trimStart (JS.trim text) = JS.trim text).
    { destruct (JS.trim text) as [|c t]; [reflexivity|]. simpl in *.
      rewrite Hh. reflexivity. }
    rewrite S. clear S Hh. induction (JS.trim text) as [|c t IH]; [reflexivity|].
    cbn [JS.trimEnd]. destruct (JS.allSpace (String c t)) eqn:A.
    - exfalso. clear IH. revert c A Hl.
      induction t as [|c' t IH]; intros c A Hl; simpl in *.
      + rewrite andb_true_r in A. congruence.
      + apply andb_true_iff in A as [_ A]. apply (IH c' A). exact Hl.
    - f_equal. apply IH. destruct t; [reflexivity|exact Hl]. }
  rewrite I. reflexivity.
Qed.

(** X16. Every tag that [normalizeTags] returns is non-empty and has no
    white space at either end, whether the front matter gave a sequence or
    a comma-separated string; a string gives no tag with a comma. *)
Theorem normalizeTags_clean (tgs : option FmTags) :
  Forall (fun t => JS.truthy t = true
                   /\ JS.headIsSpace t = false /\ JS.lastIsSpace t = false)
         (Parser.normalizeTags tgs)
  /\ match tgs with
     | Some (TagsString _) =>
         Forall (fun t => JS.existsChar (fun c => Ascii.eqb c ","%char) t = false)
                (Parser.normalizeTags tgs)
     | _ => True
     end.
Proof.
  assert (C : forall l,
    Forall (fun t => JS.truthy t = true
                     /\ JS.headIsSpace t = false /\ JS.lastIsSpace t = false)
           (List.filter JS.truthy (List.map JS.trim l))).
  { intros l. apply Forall_forall. intros t Ht.
    apply list_elem_of_In, filter_In in Ht as [Hin Ht].
    apply in_map_iff in Hin as (x & <- & _).
    split; [exact Ht|apply trim_edges]. }
  split.
  - destruct tgs as [[l|s]|]; cbn [Parser.normalizeTags]; [apply C| |constructor].
    destruct (JS.truthy s); [apply C|constructor].
  - destruct tgs as [[l|s]|]; [exact I| |exact I]. cbn [Parser.normalizeTags].
    destruct (JS.truthy s); [|constructor].
    apply Forall_forall. intros t Ht.
    apply list_elem_of_In, filter_In in Ht as [Hin _].
    apply in_map_iff in Hin as (x & <- & Hx).
    apply existsChar_trim.
    pose proof (splitChar_pieces ","%char s) as P.
    rewrite Forall_forall in P. apply P, list_elem_of_In, Hx.
Qed.

(** X17. A description that [extractDescription] finds is one line: it is
    not empty, does not start with white space, holds no line feed, and
    has at most 203 characters (200 and the ellipsis). *)
Theorem extractDescription_one_line (text : string) :
  match Parser.extractDescription text with
  | Some d =>
      JS.truthy d = true /\ String.length d <= 203
      /\ JS.headIsSpace d = false
      /\ JS.existsChar (fun c => Ascii.eqb c "010"%char) d = false
  | None => True
  end.
Proof.
  destruct (Parser.extractDescription text) as [d|] eqn:E; [|exact I].
  unfold Parser.extractDescription in E.
  eapply descriptionLoop_result; [apply splitChar_pieces|exact E].
Qed.

(** X18. A title that [extractTitle] finds holds no line terminator and
    has no white space at either end. *)
Theorem extractTitle_one_line (text : string) :
  match Parser.extractTitle text with
  | Some t =>
      JS.existsChar JS.isLineTerminator t = false
      /\ JS.headIsSpace t = false /\ JS.lastIsSpace t = false
  | None => True
  end.
Proof.
  unfold Parser.extractTitle.
  destruct (Parser.matchTitle true text) as [g|] eqn:E; [|exact I].
  cbn [option_map]. split; [|apply trim_edges].
  apply existsChar_trim. eapply matchTitle_no_terminator, E.
Qed.

(** X19. Whatever the front matter and the path, a document that
    [parseMarkdown] returns has a title and a category that are not
    empty, and carries the origin and the path it was given. *)
Theorem parseMarkdown_required_fields (matter : string -> Parser.MatterResult)
    (text filePath : string) (src : SourceType) :
  match Parser.parseMarkdown matter text filePath src with
  | Returns d =>
      JS.truthy (title d) = true /\ JS.truthy (category d) = true
      /\ source d = src /\ path d = filePath
  | Throws => True
  end.
Proof.
  unfold Parser.parseMarkdown. destruct (matter text) as [fm body|]; [|exact I].
  cbn [title category source path].
  assert (P : JS.truthy (Parser.pi_filename (Parser.extractPathInfo filePath)) = true
              /\ JS.truthy (Parser.pi_category (Parser.extractPathInfo filePath)) = true).
  { unfold Parser.extractPathInfo. cbn [Parser.pi_filename Parser.pi_category].
    split; apply orDefault_truthy; reflexivity. }
  destruct P as [Pf Pc].
  split; [apply orDefault_truthy, Pf|]. split; [apply orDefault_truthy, Pc|].
  split; reflexivity.
Qed.

(** X20. An id that [generateId] derives holds no slash and no back
    slash, and is in lower case. *)
Theorem generateId_shape (filePath : string) :
  JS.existsChar (fun c => Ascii.eqb c "/"%char) (Parser.generateId filePath) = false
  /\ JS.existsChar (fun c => Ascii.eqb c "\"%char) (Parser.generateId filePath) = false
  /\ JS.toLowerCase (Parser.generateId filePath) = Parser.generateId filePath.
Proof.
  unfold Parser.generateId. cbv zeta.
  split; [|split; [|apply toLowerCase_idempotent]].
  - unfold JS.toLowerCase. rewrite existsChar_mapChars
      by (intros c; apply lower_keeps_separator; auto).
    apply existsChar_replaced. discriminate.
  - unfold JS.toLowerCase. rewrite existsChar_mapChars
      by (intros c; apply lower_keeps_separator; auto).
    unfold JS.replaceChar at 1. rewrite existsChar_mapChars.
    2:{ intros c. destruct (Ascii.eqb_spec c "/"%char) as [->|]; reflexivity. }
    unfold JS.stripSuffixNoCase, JS.stripPrefix, Parser.stripLeadingSlash.
    pose proof (existsChar_replaced "\"%char "/"%char filePath) as N.
    specialize (N ltac:(discriminate)).
    repeat match goal with
           | |- context [if ?b then _ else _] => destruct b
           end;
      repeat first [apply existsChar_take | apply existsChar_drop]; exact N.
Qed.

(** ** The topic filter of [getStandardDocs] *)

Section GetDocsFacts.
Import JS Text GetDocs GetDocsSpec.

Lemma takeWhile_dropWhile f s : s = concat (takeWhile f s) (dropWhile f s).
Proof.
  induction s as [|c s IH]; [reflexivity|]. simpl.
  destruct (f c); simpl; [f_equal; exact IH|reflexivity].
Qed.

Lemma rev_app_last s : forall acc c r,
  String.rev_app s acc = String c r ->
  (s = EmptyString /\ acc = String c r)
  \/ exists x, s = concat x (String c EmptyString).
Proof.
  induction s as [|a s IH]; intros acc c r H; simpl in H; [auto|].
  right. destruct (IH _ _ _ H) as [[-> E]|[x ->]].
  - injection E as -> _. exists EmptyString. reflexivity.
  - exists (String a x). reflexivity.
Qed.

Lemma headingMatch_suffix line h :
  headingMatch line = Some h -> exists p, line = concat p h.
Proof.
  unfold headingMatch.
  set (hashes := takeWhile (Ascii.eqb "#"%char) line).
  set (rest := dropWhile (Ascii.eqb "#"%char) line).
  assert (L : line = concat hashes rest) by apply takeWhile_dropWhile.
  pose proof (takeWhile_dropWhile isSpace rest) as R.
  destruct ((1 <=? String.length hashes) && (String.length hashes <=? 6))%nat;
    [|discriminate].
  destruct (takeWhile isSpace rest) as [|r run'] eqn:Erun; [discriminate|].
  destruct (dropWhile isSpace rest) as [|a after] eqn:Eafter.
  - destruct (String.rev run') as [|c back] eqn:B; [discriminate|].
    destruct (isLineTerminator c); [discriminate|]. intros [= <-].
    unfold String.rev in B. apply rev_app_last in B as [[_ B]|[x ->]];
      [discriminate|].
    exists (concat hashes (String r x)). rewrite L, R.
    rewrite concat_assoc. f_equal. simpl. f_equal.
    clear. induction x as [|c' x IH]; [reflexivity|]. simpl. f_equal. exact IH.
  - destruct (existsChar isLineTerminator (String a after)); [discriminate|].
    intros [= <-]. exists (concat hashes (String r run')).
    rewrite L, R, concat_assoc. reflexivity.
Qed.

Lemma includes_concat_r p s t :
  includes s t = true -> includes (concat p s) t = true.
Proof.
  intros H. induction p as [|c p IH]; [exact H|].
  cbn [concat includes]. rewrite IH. apply orb_true_r.
Qed.

Lemma toLowerCase_concat a b :
  toLowerCase (concat a b) = concat (toLowerCase a) (toLowerCase b).
Proof.
  unfold toLowerCase. induction a as [|c a IH]; [reflexivity|].
  simpl. f_equal. exact IH.
Qed.

Lemma heading_in_line line h t :
  headingMatch line = Some h ->
  includes (toLowerCase h) t = true -> includes (toLowerCase line) t = true.
Proof.
  intros H I. destruct (headingMatch_suffix _ _ H) as [p ->].
  rewrite toLowerCase_concat. apply includes_concat_r, I.
Qed.

(** While no line is relevant, the scan collects nothing. *)
Lemma scan_idle tl lines : forall st,
  existsb (GetDocsSpec.relevantLine tl) lines = false ->
  isRelevant st = false -> extractedSections st = [] ->
  flush (fold_left (step tl) lines st) = [].
Proof.
  induction lines as [|line rest IH]; intros st H R E; cbn [fold_left].
  - unfold flush. rewrite R, E. reflexivity.
  - cbn [existsb] in H. apply orb_false_iff in H as [Hl Hrest].
    apply IH; [exact Hrest| |]; unfold step, GetDocsSpec.relevantLine in *;
      destruct (headingMatch line); cbn [isRelevant extractedSections].
    + exact Hl.
    + rewrite R, Hl. reflexivity.
    + unfold flush. rewrite R, E. reflexivity.
    + exact E.
Qed.

Lemma flush_collecting st : collecting st -> flush st <> [].
Proof.
  unfold flush. intros [H|[R C]].
  - destruct (isRelevant st && _); [|exact H]. intros E.
    apply app_eq_nil in E as [E _]. contradiction.
  - rewrite R. destruct (currentSection st) as [|x l]; [contradiction|].
    cbn. intros E. apply app_eq_nil in E as [_ E]. discriminate.
Qed.

Lemma step_collecting tl st line :
  collecting st \/ GetDocsSpec.relevantLine tl line = true ->
  collecting (step tl st line).
Proof.
  unfold step, GetDocsSpec.relevantLine.
  destruct (headingMatch line) as [h|]; cbn [extractedSections isRelevant currentSection];
    unfold collecting; cbn [extractedSections isRelevant currentSection].
  - intros [C|R].
    + left. apply flush_collecting, C.
    + right. split; [exact R|discriminate].
  - intros [[E|[R C]]|R].
    + left. exact E.
    + right. rewrite R. cbn. split; [reflexivity|].
      intros X. apply app_eq_nil in X as [_ X]. discriminate.
    + right. split.
      * rewrite R. destruct (isRelevant st); reflexivity.
      * intros X. apply app_eq_nil in X as [_ X]. discriminate.
Qed.

Lemma scan_collecting tl lines : forall st,
  collecting st \/ existsb (GetDocsSpec.relevantLine tl) lines = true ->
  flush (fold_left (step tl) lines st) <> [].
Proof.
  induction lines as [|line rest IH]; intros st H; cbn [fold_left].
  - destruct H as [C|H]; [apply flush_collecting, C|discriminate].
  - apply IH. cbn [existsb] in H.
    destruct H as [C|H]; [left; apply step_collecting; auto|].
    apply orb_true_iff in H as [H|H]; [left; apply step_collecting; auto|auto].
Qed.

(** The lines that the scan holds are lines that it has read, in order. *)
Lemma scan_sublist tl lines : forall st done,
  sublist (List.concat (extractedSections st) ++ currentSection st) done ->
  Forall (fun sec => sec <> []) (extractedSections st) ->
  let st' := fold_left (step tl) lines st in
  sublist (List.concat (flush st')) (done ++ lines)
  /\ Forall (fun sec => sec <> []) (flush st').
Proof.
  assert (F : forall st,
    sublist (List.concat (flush st))
            (List.concat (extractedSections st) ++ currentSection st)
    /\ (Forall (fun sec => sec <> []) (extractedSections st) ->
        Forall (fun sec => sec <> []) (flush st))).
  { intros st. unfold flush.
    destruct (isRelevant st); cbn [andb];
      [destruct (currentSection st) as [|x l] eqn:C; cbn|].
    - split; [rewrite app_nil_r; reflexivity|auto].
    - split.
      + rewrite concat_app. cbn. rewrite app_nil_r. reflexivity.
      + intros H. apply Forall_app. split; [exact H|].
        constructor; [discriminate|constructor].
    - split; [apply sublist_inserts_r; reflexivity|auto]. }
  induction lines as [|line rest IH]; intros st done S N; cbv zeta;
    cbn [fold_left].
  - rewrite app_nil_r. split; [|apply F, N].
    etransitivity; [apply F|exact S].
  - replace (done ++ line :: rest) with ((done ++ [line]) ++ rest)
      by (rewrite <- app_assoc; reflexivity).
    apply IH; unfold step; destruct (headingMatch line);
      cbn [extractedSections currentSection].
    + apply sublist_app; [|reflexivity].
      etransitivity; [apply F|exact S].
    + rewrite app_assoc. apply sublist_app; [exact S|reflexivity].
    + apply F, N.
    + exact N.
Qed.

End GetDocsFacts.

(** X21. [extractTopicContent] finds nothing exactly when no line makes a
    section relevant, that is when no heading text and no other line
    holds the topic, whatever the case of the letters; it then hands back
    the topic and the whole document. When it returns sections, some line
    of the document holds the topic. *)
Theorem extractTopicContent_found_iff (text topic : string) :
  match GetDocs.extractTopicContent text topic with
  | GetDocs.NothingFound t c =>
      t = topic /\ c = text
      /\ existsb (GetDocsSpec.relevantLine (JS.toLowerCase topic))
                 (JS.splitChar "010"%char text) = false
  | GetDocs.Extracted _ =>
      existsb (GetDocsSpec.relevantLine (JS.toLowerCase topic))
              (JS.splitChar "010"%char text) = true
      /\ existsb (fun line =>
                    JS.includes (JS.toLowerCase line) (JS.toLowerCase topic))
                 (JS.splitChar "010"%char text) = true
  end.
Proof.
  unfold GetDocs.extractTopicContent, GetDocs.sections.
  destruct (existsb (GetDocsSpec.relevantLine _) _) eqn:E.
  - assert (L : existsb (fun line =>
                    JS.includes (JS.toLowerCase line) (JS.toLowerCase topic))
                 (JS.splitChar "010"%char text) = true).
    { apply existsb_exists. apply existsb_exists in E as (line & Hin & R).
      exists line. split; [exact Hin|].
      unfold GetDocsSpec.relevantLine in R.
      destruct (GetDocs.headingMatch line) as [h|] eqn:H; [|exact R].
      eapply heading_in_line; eassumption. }
    pose proof (scan_collecting (JS.toLowerCase topic)
                  (JS.splitChar "010"%char text)
                  {| GetDocs.extractedSections := [];
                     GetDocs.currentSection := [];
                     GetDocs.isRelevant := false |} (or_intror E)) as H.
    destruct (GetDocs.flush _) as [|x l]; [contradiction|]. cbn. auto.
  - rewrite scan_idle by (exact E || reflexivity). cbn. auto.
Qed.

(** X22. The sections that [extractTopicContent] collects are made of
    lines of the document, each at most once and in the order of the
    document, and no section is empty: the filter leaves lines out, and
    neither adds nor moves any. *)
Theorem sections_are_lines_in_order (text topic : string) :
  sublist (List.concat (GetDocs.sections text topic))
          (JS.splitChar "010"%char text)
  /\ Forall (fun sec => sec <> []) (GetDocs.sections text topic).
Proof.
  unfold GetDocs.sections.
  apply (scan_sublist (JS.toLowerCase topic) (JS.splitChar "010"%char text)
           {| GetDocs.extractedSections := []; GetDocs.currentSection := [];
              GetDocs.isRelevant := false |} []); constructor.
Qed.

(** ** The listing tool *)

Section ListFacts.
Import JS Text ListStandards ListSpec.

Lemma insertWith_perm {A} (cmp : A -> A -> Z) x l :
  Permutation (insertWith cmp x l) (x :: l).
Proof.
  induction l as [|y l IH]; simpl; [reflexivity|].
  destruct (cmp x y <=? 0)%Z; [reflexivity|]. rewrite IH. apply perm_swap.
Qed.

Lemma sortWith_perm {A} (cmp : A -> A -> Z) l : Permutation (sortWith cmp l) l.
Proof.
  induction l as [|x l IH]; simpl; [reflexivity|].
  rewrite insertWith_perm. apply perm_skip, IH.
Qed.

Lemma pushTo_members c x groups :
  Permutation (members (pushTo c x groups)) ((c, x) :: members groups).
Proof.
  induction groups as [|[c' items] rest IH]; [reflexivity|].
  cbn [pushTo]. destruct (String.eqb_spec c' c) as [->|Hne].
  - unfold members. cbn [flat_map fst snd]. rewrite map_app. cbn [List.map].
    rewrite <- app_assoc. cbn [app].
    rewrite <- Permutation_middle. reflexivity.
  - unfold members in *. cbn [flat_map fst snd]. rewrite IH.
    rewrite Permutation_middle. reflexivity.
Qed.

Lemma pushTo_keys c x groups :
  List.map fst (pushTo c x groups)
  = if existsb (String.eqb c) (List.map fst groups) then List.map fst groups
    else List.map fst groups ++ [c].
Proof.
  induction groups as [|[c' items] rest IH]; [reflexivity|].
  cbn [pushTo List.map fst existsb].
  destruct (String.eqb_spec c' c) as [->|Hne].
  - rewrite String.eqb_refl. reflexivity.
  - destruct (String.eqb_spec c c') as [->|_]; [contradiction|].
    cbn [orb List.map fst]. rewrite IH.
    destruct (existsb _ _); reflexivity.
Qed.

Lemma pushTo_nonempty c x groups :
  Forall (fun g => snd g <> []) groups ->
  Forall (fun g => snd g <> []) (pushTo c x groups).
Proof.
  induction 1 as [|[c' items] rest H Hrest IH]; cbn [pushTo].
  - repeat constructor. discriminate.
  - destruct (String.eqb c' c); constructor; auto.
    cbn. intros E. apply app_eq_nil in E as [_ E]. discriminate.
Qed.

Lemma grouped_spec standards : forall groups,
  NoDup (List.map fst groups) ->
  Forall (fun g => snd g <> []) groups ->
  let result :=
    fold_left (fun gs s => pushTo (Manager.md_category s) (summary s) gs)
              standards groups in
  Permutation (members result)
    (members groups
     ++ List.map (fun s => (Manager.md_category s, summary s)) standards)
  /\ NoDup (List.map fst result)
  /\ Forall (fun g => snd g <> []) result
  /\ (forall c, In c (List.map fst result)
                <-> In c (List.map fst groups)
                    \/ In c (List.map Manager.md_category standards)).
Proof.
  induction standards as [|s rest IH]; intros groups N E; cbv zeta;
    cbn [fold_left List.map].
  - rewrite app_nil_r. repeat split; auto. intros [H|[]]. exact H.
  - assert (N' : NoDup (List.map fst
                          (pushTo (Manager.md_category s) (summary s) groups))).
    { rewrite pushTo_keys. destruct (existsb _ _) eqn:X; [exact N|].
      apply NoDup_app. split; [exact N|]. split; [|apply NoDup_singleton].
      intros c Hc Hs. apply list_elem_of_In in Hc.
      apply list_elem_of_In in Hs. destruct Hs as [<-|[]].
      apply not_true_iff_false in X. apply X, existsb_exists.
      exists (Manager.md_category s). split; [exact Hc|apply String.eqb_refl]. }
    destruct (IH _ N' (pushTo_nonempty _ _ _ E)) as (P & N2 & E2 & K).
    split; [|split; [exact N2|split; [exact E2|]]].
    + rewrite P, pushTo_members. cbn [app]. rewrite Permutation_middle.
      reflexivity.
    + intros c. rewrite K, pushTo_keys. cbn [In].
      destruct (existsb _ _) eqn:X.
      * apply existsb_exists in X as (y & Hy & Ey). apply String.eqb_eq in Ey.
        subst y. split; [tauto|]. intros [H|[<-|H]]; auto.
      * rewrite in_app_iff. cbn [In]. tauto.
Qed.

Section Collation.
Variable localeCompare : string -> string -> Z.

Lemma listed_toGroup groups :
  Permutation (listed (List.map (toGroup localeCompare) groups)) (members groups).
Proof.
  induction groups as [|g rest IH]; [reflexivity|].
  unfold listed, members in *. cbn [List.map flat_map]. rewrite IH.
  apply Permutation_app_tail. cbn [toGroup cg_category cg_standards].
  apply Permutation_map, sortWith_perm.
Qed.

Lemma listed_perm l1 l2 :
  Permutation l1 l2 -> Permutation (listed l1) (listed l2).
Proof. intros P. unfold listed. apply Permutation_flat_map, P. Qed.

Lemma frontend_beats (x y : CategoryGroup) :
  cg_category x = "frontend" -> (compareCategories localeCompare x y <=? 0)%Z = true.
Proof.
  intros E. unfold compareCategories. rewrite E. cbv zeta.
  change (arrayIndexOf ["frontend"; "backend"; "custom"] "frontend") with 0%Z.
  cbn [Z.eqb negb andb].
  destruct (arrayIndexOf _ (cg_category y) =? -1)%Z eqn:B; cbn [negb]; [reflexivity|].
  apply Z.leb_le. apply Z.eqb_neq in B.
  assert (R : forall l i x, (arrayIndexOfFrom i l x = -1
                              \/ Z.of_nat i <= arrayIndexOfFrom i l x)%Z).
  { induction l as [|z l IH]; intros i v; simpl; [auto|].
    destruct (String.eqb z v); [right; lia|].
    destruct (IH (S i) v); [auto|right; lia]. }
  destruct (R ["frontend"; "backend"; "custom"] 0 (cg_category y)) as [H|H];
    unfold arrayIndexOf in *; [contradiction|lia].
Qed.

Lemma beaten_by_frontend (x y : CategoryGroup) :
  cg_category x <> "frontend" -> cg_category y = "frontend" ->
  (compareCategories localeCompare x y <=? 0)%Z = false.
Proof.
  intros Hx Ey. unfold compareCategories. rewrite Ey. cbv zeta.
  change (arrayIndexOf ["frontend"; "backend"; "custom"] "frontend") with 0%Z.
  cbn [Z.eqb negb andb].
  unfold arrayIndexOf. cbn [arrayIndexOfFrom].
  destruct (String.eqb_spec "frontend" (cg_category x)) as [E|_];
    [symmetry in E; contradiction|].
  destruct (String.eqb "backend" (cg_category x)); [reflexivity|].
  destruct (String.eqb "custom" (cg_category x)); reflexivity.
Qed.

Lemma sort_frontend_first l :
  In "frontend" (List.map cg_category l) ->
  exists g rest, sortWith (compareCategories localeCompare) l = g :: rest
                 /\ cg_category g = "frontend".
Proof.
  induction l as [|x l IH]; intros H; [destruct H|].
  cbn [sortWith fold_right].
  change (fold_right (insertWith (compareCategories localeCompare)) [] l)
    with (sortWith (compareCategories localeCompare) l).
  destruct (String.eqb_spec (cg_category x) "frontend") as [Ex|Hx].
  - destruct (sortWith _ l) as [|y r]; cbn [insertWith]; [eauto|].
    rewrite (frontend_beats x y Ex). eauto.
  - destruct H as [H|H]; [contradiction|].
    destruct (IH H) as (g & r & -> & Eg). cbn [insertWith].
    rewrite (beaten_by_frontend x g Hx Eg). eauto.
Qed.

End Collation.
End ListFacts.

(** X23. [groupByCategory] partitions what it is given: every standard is
    in exactly one group, the group of its category; the categories of
    the groups are distinct; no group is empty and each [count] is the
    number of its standards, so the counts add up to the [totalCount] of
    [listStandards]. *)
Theorem groupByCategory_partitions (localeCompare : string -> string -> Z)
    (standards : list Manager.StandardMetadata) :
  let groups := ListStandards.groupByCategory localeCompare standards in
  Permutation
    (flat_map (fun g => List.map (pair (ListStandards.cg_category g))
                                 (ListStandards.cg_standards g)) groups)
    (List.map (fun s => (Manager.md_category s, ListStandards.summary s))
              standards)
  /\ NoDup (List.map ListStandards.cg_category groups)
  /\ Forall (fun g => ListStandards.cg_count g
                      = length (ListStandards.cg_standards g)
                      /\ 1 <= ListStandards.cg_count g) groups
  /\ list_sum (List.map ListStandards.cg_count groups) = length standards.
Proof.
  cbv zeta. unfold ListStandards.groupByCategory.
  change (List.map _ (ListStandards.grouped standards))
    with (List.map (ListSpec.toGroup localeCompare)
            (ListStandards.grouped standards)).
  destruct (grouped_spec standards [] (NoDup_nil_2 (A := string))
              (Forall_nil_2 _))
    as (P & N & E & _).
  change (fold_left _ standards []) with (ListStandards.grouped standards) in *.
  cbn [ListSpec.members flat_map app] in P.
  set (sorted := Text.sortWith _ _).
  assert (S : Permutation sorted
                (List.map (ListSpec.toGroup localeCompare)
                          (ListStandards.grouped standards)))
    by apply sortWith_perm.
  assert (M : Permutation (ListSpec.listed sorted)
                (List.map (fun s => (Manager.md_category s, ListStandards.summary s))
                          standards)).
  { rewrite (listed_perm _ _ S), listed_toGroup. exact P. }
  assert (C : Forall (fun g => ListStandards.cg_count g
                               = length (ListStandards.cg_standards g)
                               /\ 1 <= ListStandards.cg_count g) sorted).
  { eapply Permutation_Forall; [symmetry; exact S|].
    apply Forall_map. eapply List.Forall_impl; [|exact E].
    intros [c items] H.
    cbn [ListSpec.toGroup ListStandards.cg_count ListStandards.cg_standards
         fst snd] in *.
    split.
    - symmetry. apply Permutation_length, sortWith_perm.
    - destruct items; [contradiction|cbn; lia]. }
  split; [exact M|]. split; [|split; [exact C|]].
  - rewrite (Permutation_map ListStandards.cg_category S).
    rewrite map_map. cbn [ListSpec.toGroup ListStandards.cg_category]. exact N.
  - rewrite <- (length_map (fun s => (Manager.md_category s, ListStandards.summary s))
                  standards), <- (Permutation_length M).
    clear -C. unfold ListSpec.listed.
    induction C as [|g l [Hg _] _ IH]; [reflexivity|].
    change (list_sum (List.map ListStandards.cg_count (g :: l)))
      with (ListStandards.cg_count g
            + list_sum (List.map ListStandards.cg_count l)).
    cbn [flat_map]. rewrite length_app, length_map, IH, Hg. reflexivity.
Qed.

(** X24. Whatever the collation, when some standard has the category
    ["frontend"], its group is the first of the listing. *)
Theorem groupByCategory_frontend_first (localeCompare : string -> string -> Z)
    (standards : list Manager.StandardMetadata) :
  In "frontend" (List.map Manager.md_category standards) ->
  exists g rest,
    ListStandards.groupByCategory localeCompare standards = g :: rest
    /\ ListStandards.cg_category g = "frontend".
Proof.
  intros H. unfold ListStandards.groupByCategory. apply sort_frontend_first.
  rewrite map_map. cbn [ListStandards.cg_category].
  destruct (grouped_spec standards [] (NoDup_nil_2 (A := string))
              (Forall_nil_2 _))
    as (_ & _ & _ & K).
  apply K. right. exact H.
Qed.

Lemma groupByCategory_frontend_first_witness :
  exists g rest,
    ListStandards.groupByCategory (fun _ _ => 0%Z)
      (Manager.getAllStandards (Sample.loaded [Sample.restful; Sample.vue]))
    = g :: rest
    /\ ListStandards.cg_category g = "frontend".
Proof.
  apply groupByCategory_frontend_first. right. left. reflexivity.
Defined.

(** ** The resources of the server *)

Section ServerFacts.
Import JS.

Lemma startsWith_concat p x : startsWith (concat p x) p = true.
Proof.
  induction p as [|c p IH]; [destruct x; reflexivity|].
  simpl. rewrite Ascii.eqb_refl. exact IH.
Qed.

Lemma drop_concat p x : drop (String.length p) (concat p x) = x.
Proof. induction p as [|c p IH]; [reflexivity|exact IH]. Qed.

Lemma find_unique (l : list StandardDocument) d :
  NoDup (List.map id l) -> In d l ->
  List.find (fun doc => String.eqb (id doc) (id d)) l = Some d.
Proof.
  induction l as [|x l IH]; intros N H; [destruct H|].
  cbn [List.map] in N. apply NoDup_cons in N as [Hx N].
  cbn [List.find]. destruct H as [->|H]; [rewrite String.eqb_refl; reflexivity|].
  destruct (String.eqb_spec (id x) (id d)) as [E|_]; [|apply IH; assumption].
  exfalso. apply Hx. rewrite E. apply list_elem_of_In, in_map, H.
Qed.

End ServerFacts.

(** X25. A resource that the server lists can be read back: when the ids
    of the corpus are distinct, the URI listed for a document whose id is
    not empty and holds no line terminator reads as the content of that
    document. *)
Theorem readResource_of_listed (m : Manager.t) (d : StandardDocument) :
  In d (Manager.documents m) ->
  NoDup (List.map id (Manager.documents m)) ->
  JS.truthy (id d) = true ->
  JS.existsChar JS.isLineTerminator (id d) = false ->
  In (JS.concat "standard://" (id d))
     (List.map Server.uri (Server.listResources m))
  /\ Server.readResource m (JS.concat "standard://" (id d))
     = Server.Contents (JS.concat "standard://" (id d)) "text/markdown"
                       (content d).
Proof.
  intros Hin N T L. split.
  - unfold Server.listResources, Manager.getAllStandards.
    rewrite !map_map. cbn [Server.uri Manager.toMetadata Manager.md_id].
    apply in_map_iff. exists d. split; [reflexivity|exact Hin].
  - unfold Server.readResource, Server.resourceId.
    rewrite (startsWith_concat "standard://" (id d)).
    change 11 with (String.length "standard://").
    rewrite drop_concat, T, L. cbn [negb andb].
    unfold Manager.getStandardById. rewrite (find_unique _ d N Hin).
    reflexivity.
Qed.

Lemma readResource_of_listed_witness :
  Server.readResource (Sample.loaded [Sample.vue; Sample.restful])
    "standard://backend-api-restful"
  = Server.Contents "standard://backend-api-restful" "text/markdown"
                    "# RESTful API design".
Proof.
  apply (readResource_of_listed (Sample.loaded [Sample.vue; Sample.restful])
           Sample.restful).
  - right. left. reflexivity.
  - apply NoDup_ListNoDup. repeat constructor; simpl; intuition discriminate.
  - reflexivity.
  - reflexivity.
Defined.

(** ** The git adapter *)

(** X26. [isInPath] is a test on the prefix of the path, so every path
    that extends the configured one passes, a sibling directory included;
    and the path handed to the normalizer is the rest after the
    configured path, less one slash at its start: for a file below the
    configured directory it is the path relative to it. *)
Theorem git_relative_path (path rest : string) :
  Git.isInPath path (JS.concat path rest) = true
  /\ Git.relativePath path (JS.concat path (String "/"%char rest))
     = (if JS.truthy path then rest else String "/"%char rest)
  /\ Git.relativePath path (JS.concat path rest)
     = (if JS.truthy path then JS.stripPrefix "/" rest else rest).
Proof.
  unfold Git.isInPath, Git.relativePath.
  rewrite !startsWith_concat, !drop_concat.
  assert (S : JS.stripPrefix "/" (String "/"%char rest) = rest)
    by (destruct rest; reflexivity).
  rewrite S.
  destruct (JS.truthy path) eqn:T; cbn [negb andb].
  - split; [reflexivity|]. split; reflexivity.
  - destruct path; [|discriminate]. split; [reflexivity|]. split; reflexivity.
Qed.

(** ** The remote adapter: the records of the JSON API *)

Section RemoteMore.
Variable matter : string -> Parser.MatterResult.

Lemma transformStandards_throws url st l2 : forall l1 acc,
  Parser.isValidMarkdown (Remote.rs_content st) = true ->
  JS.startsWith (Remote.rs_content st) "---" = true ->
  matter (Remote.rs_content st) = Parser.MatterThrows ->
  Remote.transformStandards matter url (l1 ++ st :: l2) acc = Throws.
Proof.
  intros l1 acc V F M. revert acc.
  induction l1 as [|x l1 IH]; intros acc; cbn [app Remote.transformStandards].
  - assert (T : JS.truthy (Remote.rs_content st) = true).
    { unfold Parser.isValidMarkdown in V. apply andb_true_iff in V as [V _]. exact V. }
    rewrite T, V, F. cbn [negb orb]. unfold Parser.parseMarkdown. rewrite M.
    reflexivity.
  - destruct (negb (JS.truthy (Remote.rs_content x))
              || negb (Parser.isValidMarkdown (Remote.rs_content x)));
      [apply IH|].
    destruct (JS.startsWith (Remote.rs_content x) "---"); [|apply IH].
    destruct (Parser.parseMarkdown matter (Remote.rs_content x) _ remote);
      [apply IH|reflexivity].
Qed.

End RemoteMore.

(** X27. One record whose front matter the library refuses costs the
    whole answer of the JSON API: when the list holds a record with a
    front-matter delimiter on which [matter] throws, [loadFromApi]
    returns no document at all, the records before and after it
    included. *)
Theorem loadFromApi_all_or_nothing
    (matter : string -> Parser.MatterResult)
    (fetchOracle : nat -> Remote.Request -> option Remote.Response)
    (url : string) (headers : gmap string string) (log : list Remote.Request)
    (response : Remote.Response) (d : Remote.RemoteStandardsResponse)
    (l1 l2 : list Remote.RemoteStandard) (st : Remote.RemoteStandard) :
  fetchOracle (length log) (Remote.apiRequest url headers) = Some response ->
  Remote.ok response = true ->
  Remote.json response = Some d ->
  Remote.standards d = Some (l1 ++ st :: l2) ->
  Parser.isValidMarkdown (Remote.rs_content st) = true ->
  JS.startsWith (Remote.rs_content st) "---" = true ->
  matter (Remote.rs_content st) = Parser.MatterThrows ->
  fst (Remote.loadFromApi matter fetchOracle url headers log) = [].
Proof.
  intros F O J S V D M. unfold Remote.loadFromApi, Remote.fetch.
  rewrite F, O, J, S. cbn [negb].
  rewrite (transformStandards_throws matter url st l2 l1 [] V D M). reflexivity.
Qed.

Lemma loadFromApi_all_or_nothing_witness :
  fst (Remote.loadFromApi (Sample.rejecting Sample.malformed)
         Sample.apiServer "https://api.example.com/standards" ∅ []) = [].
Proof.
  apply (loadFromApi_all_or_nothing (Sample.rejecting Sample.malformed)
           Sample.apiServer "https://api.example.com/standards" ∅ []
           Sample.apiResponse Sample.apiData
           [Sample.record "a" "# A"] [Sample.record "c" "# C"]
           (Sample.record "b" Sample.malformed));
    reflexivity.
Defined.



(** ** The search helpers *)

Section SearchUtilFacts.
Import JS Text SearchUtil.




End SearchUtilFacts.


(** X30. The two sizes that [calculateSimilarity] divides: the union is
    never empty and the intersection is never greater, so the quotient is
    a number from 0 to 1; exchanging the two strings changes neither
    size; and for a string and itself the two sizes are equal. *)
Theorem similarity_sizes (str1 str2 : string) :
  fst (SearchUtil.similaritySizes str1 str2)
  <= snd (SearchUtil.similaritySizes str1 str2)
  /\ 1 <= snd (SearchUtil.similaritySizes str1 str2)
  /\ SearchUtil.similaritySizes str2 str1 = SearchUtil.similaritySizes str1 str2
  /\ fst (SearchUtil.similaritySizes str1 str1)
     = snd (SearchUtil.similaritySizes str1 str1).
Proof.
  unfold SearchUtil.similaritySizes. cbv zeta. cbn [fst snd].
  set (X := SearchUtil.wordSet str1). set (Y := SearchUtil.wordSet str2).
  assert (F : forall A B : gset string, filter (fun x => x ∈ B) A = A ∩ B).
  { intros A B. apply set_eq. intros x.
    rewrite elem_of_filter, elem_of_intersection. tauto. }
  rewrite !F.
  assert (NE : exists w, w ∈ X).
  { unfold X, SearchUtil.wordSet.
    destruct (splitSpaces_cons (JS.toLowerCase str1)) as (w & ws & E).
    exists w. rewrite E. apply elem_of_list_to_set. left. }
  split; [|split; [|split]].
  - apply subseteq_size. intros x Hx.
    apply elem_of_intersection in Hx as [Hx _]. apply elem_of_union. auto.
  - destruct NE as [w Hw].
    destruct (size (X ∪ Y)) eqn:E; [|lia].
    apply size_empty_iff in E. exfalso.
    apply (not_elem_of_empty (C := gset string) w). rewrite <- E.
    apply elem_of_union. auto.
  - rewrite (comm_L (∩) Y X), (comm_L (∪) Y X). reflexivity.
  - rewrite (idemp_L (∩) X), (idemp_L (∪) X). reflexivity.
Qed.
